(** * Test distribution over a shared SQLite store

  A shallow embedding of the coordination code of the repository:
  - [server.py]: the Flask handlers [next_test], [update_test],
    [reset_tests] over the tables [test_cases] and [test_executions], and
    the status summary of [status] and [dashboard_data];
  - [k8s_test_distributor.py]: [reset_test_statuses],
    [check_test_completion], [get_next_test] and [update_test_status];
  - [parse_robot_tests.py]: [store_in_database];
  - [merger.py]: [get_test_status] and [monitor_and_merge];
  - [worker.py]: [get_next_test], the loop of [main], and the status and
    the file name computed by [run_test].

  A table is the list of its rows in rowid order.  [datetime.now()] and
  [uuid.uuid4()] are inputs of the operation that calls them. *)

From stdpp Require Import base decidable option list sets numbers strings gmap.

Local Open Scope string_scope.
Local Open Scope list_scope.
Local Open Scope Z_scope.

(** ** The two tables *)

Module Schema.

(** A row of [test_cases].  The [status] column is added by
    [ALTER TABLE ... ADD COLUMN status TEXT DEFAULT "pending"], so a row
    inserted without a status reads ["pending"]. *)
Record TestCase := mkTestCase {
  tc_id : Z;
  tc_test_name : string;
  tc_file_path : string;
  tc_suite_name : string;
  tc_parsed_date : Z;
  tc_status : string
}.

(** A row of [test_executions]; [end_time] and [result] are NULL until
    an update writes them. *)
Record TestExecution := mkTestExecution {
  te_execution_id : string;
  te_test_id : Z;
  te_node_id : string;
  te_status : string;
  te_start_time : Z;
  te_end_time : option Z;
  te_result : option string
}.

(** The database file [robot_tests.db].  [test_cases_seq] is the entry of
    [sqlite_sequence] that [AUTOINCREMENT] keeps for [test_cases]. *)
Record Database := mkDatabase {
  test_cases : list TestCase;
  test_executions : list TestExecution;
  test_cases_seq : Z
}.

#[global] Instance TestCase_eq_dec : EqDecision TestCase.
Proof. solve_decision. Defined.

#[global] Instance TestExecution_eq_dec : EqDecision TestExecution.
Proof. solve_decision. Defined.

#[global] Instance Database_eq_dec : EqDecision Database.
Proof. solve_decision. Defined.

Definition with_status (s : string) (r : TestCase) : TestCase :=
  {| tc_id := tc_id r; tc_test_name := tc_test_name r;
     tc_file_path := tc_file_path r; tc_suite_name := tc_suite_name r;
     tc_parsed_date := tc_parsed_date r; tc_status := s |}.

(** [UPDATE test_cases SET status = ? WHERE id = ?] *)
Definition update_case_status (s : string) (i : Z)
    (rows : list TestCase) : list TestCase :=
  (λ r, if bool_decide (tc_id r = i) then with_status s r else r) <$> rows.

(** [UPDATE test_cases SET status = ?] on every row. *)
Definition update_all_status (s : string)
    (rows : list TestCase) : list TestCase :=
  with_status s <$> rows.

(** [UPDATE test_executions SET status = ?, end_time = ?, result = ?
    WHERE execution_id = ?] *)
Definition finish_execution (s : string) (now : Z) (res : option string)
    (e : TestExecution) : TestExecution :=
  {| te_execution_id := te_execution_id e; te_test_id := te_test_id e;
     te_node_id := te_node_id e; te_status := s;
     te_start_time := te_start_time e; te_end_time := Some now;
     te_result := res |}.

Definition update_execution (s : string) (now : Z) (res : option string)
    (eid : string) (rows : list TestExecution) : list TestExecution :=
  (λ e, if bool_decide (te_execution_id e = eid)
        then finish_execution s now res e else e) <$> rows.

(** [SELECT test_id FROM test_executions WHERE execution_id = ?],
    [fetchone()]. *)
Definition select_execution (eid : string)
    (rows : list TestExecution) : option TestExecution :=
  snd <$> list_find (λ e, te_execution_id e = eid) rows.

(** [INSERT INTO test_executions]: [execution_id] is the primary key, a
    second row with the same key raises [sqlite3.IntegrityError]. *)
Definition insert_execution (e : TestExecution)
    (rows : list TestExecution) : option (list TestExecution) :=
  if bool_decide (te_execution_id e ∈ (te_execution_id <$> rows))
  then None
  else Some (rows ++ [e]).

(** The first row of [ORDER BY id]: the row of least [id], the earlier
    row among equal ids. *)
Fixpoint order_by_id_first (rows : list TestCase) : option TestCase :=
  match rows with
  | [] => None
  | r :: rest =>
      match order_by_id_first rest with
      | Some m => if bool_decide (tc_id m < tc_id r) then Some m else Some r
      | None => Some r
      end
  end.

(** [SELECT id, test_name, suite_name, file_path FROM test_cases
    WHERE status = "pending" ORDER BY id LIMIT 1], [fetchone()]. *)
Definition select_next_pending (rows : list TestCase) : option TestCase :=
  order_by_id_first (filter (λ r, tc_status r = "pending") rows).

(** [SELECT COUNT( * ) FROM test_executions WHERE status = s] *)
Definition count_executions (s : string) (rows : list TestExecution) : nat :=
  length (filter (λ e, te_status e = s) rows).

(** [SELECT COUNT( * ) FROM test_cases WHERE status = s] *)
Definition count_cases (s : string) (rows : list TestCase) : nat :=
  length (filter (λ r, tc_status r = s) rows).

End Schema.
Import Schema.

(** ** server.py *)

Module Server.

(** What [jsonify] is given. *)
Inductive Body :=
| Error (error : string)
| Message (message : string)
| Assignment (execution_id : string) (test_id : Z)
    (test_name suite_name file_path : string)
| ResetMessage (rowcount : nat)
| Unhandled (exception : string).

(** A handler returns [jsonify(body), code]. *)
Definition Response : Type := Body * Z.

#[global] Instance Body_eq_dec : EqDecision Body.
Proof. solve_decision. Defined.

(** [get_db_connection()] returns [None] when the file is missing: the
    store a handler sees is an [option Database]. *)
Definition get_db_connection (file : option Database) : option Database :=
  file.

(** The statements of [next_test] after the [SELECT]: mark the test
    running, insert the execution record, commit.  Python's [sqlite3]
    opens the transaction at the [UPDATE]; [None] is the
    [IntegrityError] of the [INSERT], which leaves nothing committed. *)
Definition claim (db : Database) (test_id : Z) (node_id : string)
    (execution_id : string) (now : Z) : option Database :=
  let cases := update_case_status "running" test_id (test_cases db) in
  executions ← insert_execution
    {| te_execution_id := execution_id; te_test_id := test_id;
       te_node_id := node_id; te_status := "running";
       te_start_time := now; te_end_time := None; te_result := None |}
    (test_executions db);
  Some {| test_cases := cases; test_executions := executions;
          test_cases_seq := test_cases_seq db |}.

Definition assignment (execution_id : string) (test : TestCase) : Response :=
  (Assignment execution_id (tc_id test) (tc_test_name test)
     (tc_suite_name test) (tc_file_path test), 200).

Definition no_tests : Response := (Message "No tests available", 404).

Definition integrity_error : Response := (Unhandled "IntegrityError", 500).

(** [GET /api/next_test?node_id=...] *)
Definition next_test (file : option Database) (node_id_arg : option string)
    (uuid4 : string) (now : Z) : option Database * Response :=
  let node_id := default "unknown-node" node_id_arg in
  match get_db_connection file with
  | None => (file, (Error "Database not found", 500))
  | Some db =>
      match select_next_pending (test_cases db) with
      | None => (Some db, no_tests)
      | Some test =>
          match claim db (tc_id test) node_id uuid4 now with
          | Some db' => (Some db', assignment uuid4 test)
          | None => (Some db, integrity_error)
          end
      end
  end.

(** The JSON body of [POST /api/update_test]; a key may be absent. *)
Record UpdateData := mkUpdateData {
  ud_execution_id : option string;
  ud_status : option string;
  ud_result : option string
}.

(** A body that carries both required keys. *)
Definition posted (execution_id status : string) (result : option string)
    : option UpdateData :=
  Some (mkUpdateData (Some execution_id) (Some status) result).

(** [POST /api/update_test] *)
Definition update_test (file : option Database) (data : option UpdateData)
    (now : Z) : option Database * Response :=
  match data with
  | Some {| ud_execution_id := Some execution_id; ud_status := Some status;
            ud_result := result |} =>
      match get_db_connection file with
      | None => (file, (Error "Database not found", 500))
      | Some db =>
          match select_execution execution_id (test_executions db) with
          | None => (Some db, (Error "Execution ID not found", 404))
          | Some result_row =>
              let test_id := te_test_id result_row in
              (Some {| test_cases :=
                         update_case_status status test_id (test_cases db);
                       test_executions :=
                         update_execution status now result execution_id
                           (test_executions db);
                       test_cases_seq := test_cases_seq db |},
               (Message "Test status updated", 200))
          end
      end
  | _ => (file, (Error "Missing required fields", 400))
  end.

(** [POST /api/reset] *)
Definition reset_tests (file : option Database)
    : option Database * Response :=
  match get_db_connection file with
  | None => (file, (Error "Database not found", 500))
  | Some db =>
      (Some {| test_cases := update_all_status "pending" (test_cases db);
               test_executions := test_executions db;
               test_cases_seq := test_cases_seq db |},
       (ResetMessage (length (test_cases db)), 200))
  end.

End Server.

(** ** Several [next_test] requests in flight

  Flask serves each request on its own thread with its own connection.
  The [SELECT] of [next_test] runs outside any transaction; the
  [UPDATE], the [INSERT] and the commit form the write transaction,
  which SQLite serialises against the other writers.  A request is
  therefore two steps, and the steps of different requests interleave in
  any order. *)

Module Concurrent.
Import Server.

Inductive Request :=
| Received (node_id : option string) (uuid4 : string) (now : Z)
| Fetched (node_id : option string) (uuid4 : string) (now : Z)
    (test : TestCase)
| Responded (response : Response).

Record State := mkState {
  db : Database;
  requests : list Request
}.

(** Request [i] runs its next step. *)
Definition advance (i : nat) (s : State) : State :=
  match requests s !! i with
  | Some (Received node_id uuid4 now) =>
      match select_next_pending (test_cases (db s)) with
      | None =>
          {| db := db s;
             requests := <[i := Responded no_tests]> (requests s) |}
      | Some test =>
          {| db := db s;
             requests := <[i := Fetched node_id uuid4 now test]> (requests s) |}
      end
  | Some (Fetched node_id uuid4 now test) =>
      match claim (db s) (tc_id test) (default "unknown-node" node_id)
              uuid4 now with
      | Some db' =>
          {| db := db';
             requests := <[i := Responded (assignment uuid4 test)]> (requests s) |}
      | None =>
          {| db := db s;
             requests := <[i := Responded integrity_error]> (requests s) |}
      end
  | _ => s
  end.

(** Request [i] runs both of its steps with no other request between
    them. *)
Definition serve (i : nat) (s : State) : State := advance i (advance i s).

Definition run (step : nat → State → State) (schedule : list nat)
    (s : State) : State :=
  foldl (λ s i, step i s) s schedule.

(** The test a request was given, if it was given one. *)
Definition assigned (r : Request) : option Z :=
  match r with
  | Responded (Assignment _ test_id _ _ _, _) => Some test_id
  | _ => None
  end.

Definition assigned_tests (s : State) : list Z :=
  omap assigned (requests s).

(** The execution records of a test that are still running. *)
Definition active (test_id : Z) (rows : list TestExecution)
    : list TestExecution :=
  filter (λ e, te_test_id e = test_id ∧ te_status e = "running") rows.

Definition fresh (r : Request) : Prop :=
  match r with Received _ _ _ => True | _ => False end.

#[global] Instance fresh_dec r : Decision (fresh r).
Proof. destruct r; simpl; apply _. Defined.

(** A request between its two steps holds a row it has read and not yet
    written. *)
Definition settled (r : Request) : Prop :=
  match r with Fetched _ _ _ _ => False | _ => True end.

(** What holds of the store and the requests between two requests served
    whole: a test has at most one running execution, a pending test has
    none, and the tests given out are distinct and each has a running
    execution. *)
Record consistent (s : State) : Prop := mkConsistent {
  one_active :
    ∀ t, (length (active t (test_executions (db s))) ≤ 1)%nat;
  pending_free :
    ∀ r, r ∈ test_cases (db s) → tc_status r = "pending" →
         active (tc_id r) (test_executions (db s)) = [];
  all_settled : Forall settled (requests s);
  assigned_distinct : NoDup (assigned_tests s);
  assigned_active :
    ∀ t, t ∈ assigned_tests s → active t (test_executions (db s)) ≠ []
}.

End Concurrent.

(** ** k8s_test_distributor.py *)

Module Distributor.

(** [reset_test_statuses(conn)] *)
Definition reset_test_statuses (db : Database) : Database :=
  {| test_cases := update_all_status "pending" (test_cases db);
     test_executions := test_executions db;
     test_cases_seq := test_cases_seq db |}.

(** [check_test_completion()]: no row of [test_cases] is pending or
    running. *)
Definition check_test_completion (db : Database) : bool :=
  let remaining :=
    length (filter (λ r, tc_status r = "pending" ∨ tc_status r = "running")
              (test_cases db)) in
  bool_decide (remaining = 0%nat).

End Distributor.

(** ** parse_robot_tests.py *)

Module Parser.

(** An entry of the list built by [parse_robot_file]. *)
Record ParsedTest := mkParsedTest {
  test_name : string;
  file_path : string;
  suite_name : string
}.

Definition max_id (rows : list TestCase) : Z :=
  foldr (λ r m, Z.max (tc_id r) m) 0 rows.

(** [INSERT INTO test_cases (test_name, file_path, suite_name,
    parsed_date)]: [AUTOINCREMENT] gives the row an id above every id the
    table has ever held. *)
Definition insert_test_case (current_time : Z) (db : Database)
    (test : ParsedTest) : Database :=
  let new_id := Z.max (test_cases_seq db) (max_id (test_cases db)) + 1 in
  {| test_cases :=
       test_cases db ++
       [ {| tc_id := new_id; tc_test_name := test_name test;
            tc_file_path := file_path test;
            tc_suite_name := suite_name test;
            tc_parsed_date := current_time; tc_status := "pending" |} ];
     test_executions := test_executions db;
     test_cases_seq := new_id |}.

(** [store_in_database(conn, cursor, tests)]; the result is
    [cursor.rowcount], the row count of the last statement executed. *)
Definition store_in_database (db : Database) (tests : list ParsedTest)
    (current_time : Z) : Database * nat :=
  let cleared :=
    {| test_cases := []; test_executions := test_executions db;
       test_cases_seq := test_cases_seq db |} in
  (foldl (insert_test_case current_time) cleared tests,
   match tests with
   | [] => length (test_cases db)
   | _ => 1%nat
   end).

End Parser.

(** ** merger.py *)

Module Merger.

(** The dictionary returned by [get_test_status]. *)
Record TestStatus := mkTestStatus {
  total : nat;
  finished : nat;
  passed : nat;
  failed : nat;
  all_completed : bool
}.

(** [get_test_status()]: [None] when a query raises, as it does on a
    missing database. *)
Definition get_test_status (file : option Database) : option TestStatus :=
  db ← file;
  let total_tests := length (test_cases db) in
  let finished_tests :=
    length (filter (λ e, te_status e = "completed" ∨ te_status e = "failed")
              (test_executions db)) in
  let passed_tests := count_executions "completed" (test_executions db) in
  let failed_tests := count_executions "failed" (test_executions db) in
  Some {| total := total_tests; finished := finished_tests;
          passed := passed_tests; failed := failed_tests;
          all_completed := bool_decide (total_tests = finished_tests) |}.

Inductive Event :=
| Sleep (seconds : Z)
| MergeTestResults.

#[global] Instance Event_eq_dec : EqDecision Event.
Proof. solve_decision. Defined.

(** How [monitor_and_merge] ends: [break], [sys.exit(code)], an
    exception that leaves it, or still in its loop when the reads given to
    it are used up. *)
Inductive Exit :=
| Break
| SysExit (code : Z)
| Raises (exception : string)
| Looping.

(** [monitor_and_merge()]: [reads] is what the database holds at each
    successive call of [get_test_status], [merged] what
    [merge_test_results()] returns.  [time.sleep] of a negative number
    raises [ValueError]. *)
Fixpoint monitor_and_merge (POLLING_INTERVAL : Z) (merged : bool)
    (reads : list (option Database)) : list Event * Exit :=
  match reads with
  | [] => ([], Looping)
  | file :: later =>
      match get_test_status file with
      | None =>
          let '(events, exit) :=
            monitor_and_merge POLLING_INTERVAL merged later in
          (Sleep 30 :: events, exit)
      | Some status =>
          if all_completed status
          then ([Sleep 5; MergeTestResults],
                if merged then Break else SysExit 1)
          else if bool_decide (POLLING_INTERVAL < 0)
          then ([], Raises "ValueError")
          else
            let '(events, exit) :=
              monitor_and_merge POLLING_INTERVAL merged later in
            (Sleep POLLING_INTERVAL :: events, exit)
      end
  end.

End Merger.

(** ** worker.py: what [run_test] reports *)

Module Runner.

(** [status = "completed" if result.returncode == 0 else "failed"], and
    ["failed"] when running the test raised; [None] is the exception. *)
Definition status_of (returncode : option Z) : string :=
  match returncode with
  | Some 0 => "completed"
  | _ => "failed"
  end.

(** [str.rstrip()]: trailing white space is removed.  A Python string is
    its list of code points; [str.isalnum] and [str.isspace] on one
    character are given. *)
Fixpoint rstrip (isspace : N → bool) (s : list N) : list N :=
  match s with
  | [] => []
  | c :: rest =>
      match rstrip isspace rest with
      | [] => if isspace c then [] else [c]
      | kept => c :: kept
      end
  end.

(** [safe_test_name]: the characters that are alphanumeric, a space, a
    hyphen or an underscore are kept, trailing white space is stripped and
    every space is replaced by an underscore. *)
Definition safe_test_name (isalnum isspace : N → bool) (test_name : list N)
    : list N :=
  (λ c, if bool_decide (c = 32%N) then 95%N else c) <$>
  rstrip isspace
    (filter (λ c, isalnum c = true ∨ c ∈ [32%N; 45%N; 95%N]) test_name).

End Runner.

(** ** worker.py *)

Module Worker.

(** The JSON of a 200 reply of [/api/next_test]. *)
Record TestData := mkTestData {
  execution_id : string;
  test_id : Z;
  test_name : string;
  suite_name : string;
  file_path : string
}.

(** What [requests.get] does: a response, of which the code reads
    [status_code], [text] and, on a 200, [json()]; or a
    [requests.RequestException].  [json] is [None] when the body is not
    JSON: [response.json()] then raises [requests.JSONDecodeError], itself
    a [RequestException]. *)
Inductive Reply :=
| Response (status_code : Z) (text : string) (json : option TestData)
| RequestException.

(** [needle in haystack] *)
Fixpoint contains (needle haystack : string) : bool :=
  String.prefix needle haystack ||
  match haystack with
  | EmptyString => false
  | String _ rest => contains needle rest
  end.

Definition max_retries : nat := 3.

(** What a call of [get_next_test] comes to: a test, [None], or an
    exception that leaves the function. *)
Inductive Fetch :=
| Got (test : TestData)
| NoTest
| Raised (exception : string).

(** The [for attempt in range(max_retries)] loop from iteration
    [attempt] on, with [todo] iterations left.  [api n] is the reply to
    the [n]-th request the worker sends, [sent] the number sent so far.
    The name [time] is local to the function and bound by the
    [import time] of two of its branches only: [time_bound] tells whether
    one of them has run.  The result carries the delays slept and the
    new [sent]. *)
Fixpoint attempts (api : nat → Reply) (sent attempt todo : nat)
    (retry_delay : Z) (time_bound : bool) : Fetch * list Z * nat :=
  match todo with
  | O => (NoTest, [], sent)
  | S todo' =>
      match api sent with
      | Response status_code text json =>
          if bool_decide (status_code = 200)
          then
            match json with
            | Some test_data => (Got test_data, [], S sent)
            | None =>
                if bool_decide (attempt < max_retries - 1)%nat
                then
                  let '(fetch, slept, n) :=
                    attempts api (S sent) (S attempt) todo'
                      (retry_delay * 2) true in
                  (fetch, retry_delay :: slept, n)
                else (NoTest, [], S sent)
            end
          else if bool_decide (status_code = 404) then (NoTest, [], S sent)
          else if bool_decide (status_code = 500)
                  && contains "Database error" text
          then
            let '(fetch, slept, n) :=
              attempts api (S sent) (S attempt) todo' (retry_delay * 2) true in
            (fetch, retry_delay :: slept, n)
          else if bool_decide (attempt < max_retries - 1)%nat
          then
            if time_bound
            then
              let '(fetch, slept, n) :=
                attempts api (S sent) (S attempt) todo' (retry_delay * 2)
                  time_bound in
              (fetch, retry_delay :: slept, n)
            else (Raised "UnboundLocalError", [], S sent)
          else (NoTest, [], S sent)
      | RequestException =>
          if bool_decide (attempt < max_retries - 1)%nat
          then
            let '(fetch, slept, n) :=
              attempts api (S sent) (S attempt) todo' (retry_delay * 2) true in
            (fetch, retry_delay :: slept, n)
          else (NoTest, [], S sent)
      end
  end.

(** [get_next_test()] *)
Definition get_next_test (api : nat → Reply) (sent : nat)
    : Fetch * list Z * nat :=
  attempts api sent 0 max_retries 1 false.

(** How [main] ends: it prints "Test runner completed" after
    [tests_run] tests, returns after a failed connectivity test, prints
    the exception it caught, or is still in its loop when [fuel]
    iterations are over. *)
Inductive Outcome :=
| Completed (tests_run : nat)
| ConnectivityFailed
| ExceptionInMain (exception : string)
| StillRunning.

#[global] Instance Outcome_eq_dec : EqDecision Outcome.
Proof. solve_decision. Defined.

(** What a call of [run_test] comes to: the robot command was run and
    ended with [returncode] ([None]: running it raised, which [run_test]
    catches), or a statement between the fetch and the [try] of
    [run_test] raised (a key missing in the test, [os.makedirs]). *)
Inductive Run :=
| Ran (returncode : option Z)
| RaisedBefore (exception : string).

(** The [while True] loop of [main].  [run_test n test] is what running
    [test] as the [n]-th test of this worker comes to.
    [update_test_status] catches its own errors.  The result is how the
    loop ends, the tests reported with their status, in order, and the
    number of requests sent to [/api/next_test]. *)
Fixpoint work (api : nat → Reply) (run_test : nat → TestData → Run)
    (sent tests_run fuel : nat) : Outcome * list (TestData * string) * nat :=
  match fuel with
  | O => (StillRunning, [], sent)
  | S fuel' =>
      match get_next_test api sent with
      | (Got test, _, sent') =>
          match run_test tests_run test with
          | Ran returncode =>
              let '(outcome, reports, n) :=
                work api run_test sent' (S tests_run) fuel' in
              (outcome, (test, Runner.status_of returncode) :: reports, n)
          | RaisedBefore exception => (ExceptionInMain exception, [], sent')
          end
      | (NoTest, _, sent') => (Completed tests_run, [], sent')
      | (Raised exception, _, sent') => (ExceptionInMain exception, [], sent')
      end
  end.

(** How the loop ends. *)
Definition loop (api : nat → Reply) (run_test : nat → TestData → Run)
    (sent tests_run fuel : nat) : Outcome :=
  (work api run_test sent tests_run fuel).1.1.

(** [main()]; [status_reply] tells whether the request to [/api/status]
    got a reply. *)
Definition main (status_reply : bool) (api : nat → Reply)
    (run_test : nat → TestData → Run) (fuel : nat) : Outcome :=
  if status_reply then loop api run_test 0 0 fuel else ConnectivityFailed.

(** The replies after which [get_next_test] sleeps and asks again: a
    request exception, or a 500 whose text contains "Database error". *)
Definition retried (r : Reply) : Prop :=
  match r with
  | RequestException => True
  | Response status_code text _ =>
      status_code = 500 ∧ contains "Database error" text = true
  end.

(** The loop ended as a failure, not as a completed run. *)
Definition failed (o : Outcome) : Prop :=
  match o with
  | ExceptionInMain _ | ConnectivityFailed => True
  | _ => False
  end.

End Worker.

(** ** Concrete runs *)

Module Scenario.
Import Server Parser.

(** A database file on which the server was started before any test was
    parsed. *)
Definition empty : Database :=
  {| test_cases := []; test_executions := []; test_cases_seq := 0 |}.

Definition login : ParsedTest :=
  mkParsedTest "Valid Login" "tests/auth/login.robot" "auth".

Definition logout : ParsedTest :=
  mkParsedTest "Logout" "tests/auth/logout.robot" "auth".

(** One test parsed and stored. *)
Definition seeded : Database := (store_in_database empty [login] 100).1.

(** Two tests parsed and stored. *)
Definition seeded2 : Database :=
  (store_in_database empty [login; logout] 100).1.

(** [pod-a] is given the test ... *)
Definition claimed : option Database :=
  (next_test (Some seeded) (Some "pod-a") "e-1" 110).1.

Definition report (status : string) : option UpdateData :=
  Some (mkUpdateData (Some "e-1") (Some status) (Some "{}")).

(** ... and reports it completed ... *)
Definition reported : option Database :=
  (update_test claimed (report "completed") 120).1.

(** ... and the statuses are reset for a second run. *)
Definition rerun : option Database := (reset_tests reported).1.

(** Two pods ask for a test at about the same time. *)
Definition two_requests (db : Database) : Concurrent.State :=
  {| Concurrent.db := db;
     Concurrent.requests :=
       [ Concurrent.Received (Some "pod-a") "e-1" 110;
         Concurrent.Received (Some "pod-b") "e-2" 111 ] |}.

(** The store while [pod-a] holds the test. *)
Definition running_db : Database := from_option id empty claimed.

(** The second run: [pod-b] is given the test again and reports it
    completed. *)
Definition rerun_finished : option Database :=
  (update_test (next_test rerun (Some "pod-b") "e-2" 210).1
     (posted "e-2" "completed" None) 220).1.

Definition executions (file : option Database) : list TestExecution :=
  from_option test_executions [] file.

Definition cases (file : option Database) : list TestCase :=
  from_option test_cases [] file.

End Scenario.

(** ** server.py: the status summary *)

Module Summary.

(** [SELECT status, COUNT( * ) as count FROM test_cases GROUP BY status]:
    one row for each status that occurs, with the number of its rows. *)
Definition group_by_status (rows : list TestCase) : list (string * nat) :=
  (λ s, (s, count_cases s rows)) <$> remove_dups (tc_status <$> rows).

(** The dictionary that [status] and [dashboard_data] build from the rows
    of that query, [status_counts[row['status']] = row['count']]. *)
Definition status_counts (rows : list TestCase) : gmap string nat :=
  foldl (λ d row, <[row.1 := row.2]> d) ∅ (group_by_status rows).

(** [SELECT COUNT( * ) as total FROM test_cases] *)
Definition total_tests (rows : list TestCase) : nat := length rows.

(** The sum of the values of the dictionary. *)
Definition counted (d : gmap string nat) : nat :=
  foldr (λ kv n, (kv.2 + n)%nat) 0%nat (map_to_list d).

End Summary.

(** ** k8s_test_distributor.py: the store operations *)

Module DistributorStore.

(** The dictionary returned by [get_next_test]. *)
Record Test := mkTest {
  execution_id : string;
  test_id : Z;
  test_name : string;
  suite_name : string;
  file_path : string
}.

(** [get_next_test(conn, node_id)]: the store and [None] or the test;
    no result at all when the [INSERT] raises. *)
Definition get_next_test (db : Database) (node_id : string) (uuid4 : string)
    (now : Z) : option (Database * option Test) :=
  match select_next_pending (test_cases db) with
  | None => Some (db, None)
  | Some test =>
      let cases := update_case_status "running" (tc_id test) (test_cases db) in
      executions ← insert_execution
        {| te_execution_id := uuid4; te_test_id := tc_id test;
           te_node_id := node_id; te_status := "running";
           te_start_time := now; te_end_time := None; te_result := None |}
        (test_executions db);
      Some ({| test_cases := cases; test_executions := executions;
               test_cases_seq := test_cases_seq db |},
            Some {| execution_id := uuid4; test_id := tc_id test;
                    test_name := tc_test_name test;
                    suite_name := tc_suite_name test;
                    file_path := tc_file_path test |})
  end.

(** [update_test_status(conn, execution_id, status, result=None)] *)
Definition update_test_status (db : Database) (execution_id status : string)
    (result : option string) (now : Z) : Database * bool :=
  match select_execution execution_id (test_executions db) with
  | None => (db, false)
  | Some result_row =>
      ({| test_cases :=
            update_case_status status (te_test_id result_row) (test_cases db);
          test_executions :=
            update_execution status now result execution_id
              (test_executions db);
          test_cases_seq := test_cases_seq db |}, true)
  end.

End DistributorStore.

(** ** Calls served one after the other *)

Module Run.
Import Server.

Inductive Call :=
| NextTest (node_id : option string) (uuid4 : string) (now : Z)
| UpdateTest (data : option UpdateData) (now : Z)
| ResetTests.

Definition handle (file : option Database) (c : Call)
    : option Database * Response :=
  match c with
  | NextTest node_id uuid4 now => next_test file node_id uuid4 now
  | UpdateTest data now => update_test file data now
  | ResetTests => reset_tests file
  end.

(** The store after a list of calls. *)
Definition after (file : option Database) (calls : list Call)
    : option Database :=
  foldl (λ f c, (handle f c).1) file calls.

(** The calls a worker makes: it asks for a test, and it reports with
    the status [run_test] gave it. *)
Definition worker_call (c : Call) : Prop :=
  match c with
  | NextTest _ _ _ => True
  | UpdateTest data _ =>
      ∃ execution_id returncode result,
        data = posted execution_id (Runner.status_of returncode) result
  | ResetTests => False
  end.

(** What holds of the store during a single run, between calls: test ids
    and execution ids are keys, a test has at most one execution record,
    the status of a record is that of its test, and a test that is not
    pending has a record. *)
Record single_run (db : Database) : Prop := mkSingleRun {
  case_key : NoDup (tc_id <$> test_cases db);
  execution_key : NoDup (te_execution_id <$> test_executions db);
  one_execution : NoDup (te_test_id <$> test_executions db);
  execution_status :
    ∀ e, e ∈ test_executions db →
      (te_status e = "running" ∨ te_status e = "completed" ∨
       te_status e = "failed") ∧
      ∃ r, r ∈ test_cases db ∧ tc_id r = te_test_id e ∧
           tc_status r = te_status e;
  case_execution :
    ∀ r, r ∈ test_cases db →
      tc_status r = "pending" ∨
      ∃ e, e ∈ test_executions db ∧ te_test_id e = tc_id r
}.

End Run.

(** ** merger.py: the four reads of [get_test_status] *)

Module MergerReads.
Import Merger.

(** [get_test_status()] with the database as each of its four SELECTs
    finds it: the connection is in autocommit, so what a worker commits
    between two of them is seen by the later one.  [None] when the first
    query raises, as it does on a missing database. *)
Definition get_test_status (at_total : option Database)
    (at_finished at_passed at_failed : Database) : option TestStatus :=
  db ← at_total;
  let total_tests := length (test_cases db) in
  let finished_tests :=
    length (filter (λ e, te_status e = "completed" ∨ te_status e = "failed")
              (test_executions at_finished)) in
  let passed_tests :=
    count_executions "completed" (test_executions at_passed) in
  let failed_tests := count_executions "failed" (test_executions at_failed) in
  Some {| total := total_tests; finished := finished_tests;
          passed := passed_tests; failed := failed_tests;
          all_completed := bool_decide (total_tests = finished_tests) |}.

End MergerReads.

(** ** Characters of a test name *)

Module Examples.

(** [str.isalnum] and [str.isspace] as they are on the ASCII code points,
    for names written in ASCII. *)
Definition isalnum (c : N) : bool :=
  ((48 <=? c) && (c <=? 57) || (65 <=? c) && (c <=? 90) ||
   (97 <=? c) && (c <=? 122))%N.

Definition isspace (c : N) : bool :=
  ((c =? 32) || (9 <=? c) && (c <=? 13) || (28 <=? c) && (c <=? 31))%N.

End Examples.

(** * Properties *)

(** ** Queries and updates on the tables *)

Section Tables.
Implicit Types (rows : list TestCase) (execs : list TestExecution).

Lemma select_execution_None eid execs :
  select_execution eid execs = None ↔ eid ∉ (te_execution_id <$> execs).
Proof.
  unfold select_execution. rewrite fmap_None, list_find_None.
  rewrite Forall_forall, list_elem_of_fmap. split.
  - intros Hall (e & -> & He). by apply (Hall e).
  - intros Hnot e He Heq. apply Hnot. by exists e.
Qed.

Lemma select_execution_Some eid execs e :
  select_execution eid execs = Some e →
  e ∈ execs ∧ te_execution_id e = eid.
Proof.
  unfold select_execution. intros [[i e'] [Hfind ->]]%fmap_Some.
  apply list_find_Some in Hfind as (Hi & He & _).
  split; [by eapply list_elem_of_lookup_2 | done].
Qed.

Lemma select_execution_is_Some eid execs :
  eid ∈ (te_execution_id <$> execs) →
  ∃ e, select_execution eid execs = Some e.
Proof.
  intros Hin. destruct (select_execution eid execs) as [e|] eqn:E; [eauto|].
  by apply select_execution_None in E.
Qed.

Lemma order_by_id_first_None rows :
  order_by_id_first rows = None ↔ rows = [].
Proof.
  destruct rows as [|r rest]; simpl; [done|].
  destruct (order_by_id_first rest); [case_bool_decide|]; done.
Qed.

Lemma order_by_id_first_Some rows m :
  order_by_id_first rows = Some m →
  m ∈ rows ∧ ∀ r, r ∈ rows → tc_id m ≤ tc_id r.
Proof.
  revert m. induction rows as [|r rest IH]; intros m; simpl; [done|].
  destruct (order_by_id_first rest) as [m'|] eqn:E.
  - destruct (IH m' eq_refl) as [Hin Hle].
    case_bool_decide as Hlt; intros [= <-].
    + split; [apply elem_of_cons; by right|].
      intros r' [->|Hr']%elem_of_cons; [lia | by apply Hle].
    + split; [apply elem_of_cons; by left|].
      intros r' [->|Hr']%elem_of_cons; [lia|].
      specialize (Hle r' Hr'). lia.
  - apply order_by_id_first_None in E as ->. intros [= <-].
    split; [apply elem_of_cons; by left|].
    intros r' [->|Hr']%elem_of_cons; [lia|].
    by apply elem_of_nil in Hr'.
Qed.

Lemma filter_pending_nil rows :
  filter (λ r, tc_status r = "pending") rows = [] ↔
  ∀ r, r ∈ rows → tc_status r ≠ "pending".
Proof.
  split.
  - intros Hnil r Hr Hp.
    by apply (filter_nil_not_elem_of _ _ r Hnil Hp).
  - intros Hall.
    destruct (filter _ rows) as [|r rest] eqn:E; [done|].
    assert (r ∈ filter (λ r, tc_status r = "pending") rows) as Hr
      by (rewrite E; apply elem_of_cons; by left).
    apply list_elem_of_filter in Hr as [Hp Hr]. by destruct (Hall r Hr).
Qed.

Lemma select_next_pending_None rows :
  select_next_pending rows = None ↔
  ∀ r, r ∈ rows → tc_status r ≠ "pending".
Proof.
  unfold select_next_pending.
  by rewrite order_by_id_first_None, filter_pending_nil.
Qed.

Lemma select_next_pending_Some rows m :
  select_next_pending rows = Some m →
  m ∈ rows ∧ tc_status m = "pending" ∧
  ∀ r, r ∈ rows → tc_status r = "pending" → tc_id m ≤ tc_id r.
Proof.
  unfold select_next_pending. intros [Hin Hle]%order_by_id_first_Some.
  apply list_elem_of_filter in Hin as [Hp Hin]. split_and!; [done..|].
  intros r Hr Hpr. apply Hle. by apply list_elem_of_filter.
Qed.

Lemma elem_of_update_case_status s i rows r' :
  r' ∈ update_case_status s i rows ↔
  ∃ r, r ∈ rows ∧
       r' = if bool_decide (tc_id r = i) then with_status s r else r.
Proof.
  unfold update_case_status. rewrite list_elem_of_fmap.
  split; intros (r & H1 & H2); exists r; done.
Qed.

Lemma elem_of_update_execution s now res eid execs e' :
  e' ∈ update_execution s now res eid execs ↔
  ∃ e, e ∈ execs ∧
       e' = if bool_decide (te_execution_id e = eid)
            then finish_execution s now res e else e.
Proof.
  unfold update_execution. rewrite list_elem_of_fmap.
  split; intros (e & H1 & H2); exists e; done.
Qed.

End Tables.

(** A decidable closed proposition is settled by evaluation. *)
Ltac by_compute := apply (bool_decide_unpack _); vm_compute; exact I.

(** ** update_test *)

Section UpdateTest.
Import Server.
Implicit Types (db : Database) (eid status : string)
  (result : option string) (now : Z).

Lemma select_execution_update s now res eid' eid execs :
  select_execution eid (update_execution s now res eid' execs) =
  (λ e, if bool_decide (te_execution_id e = eid')
        then finish_execution s now res e else e)
    <$> select_execution eid execs.
Proof.
  unfold select_execution, update_execution.
  rewrite list_find_fmap, <-!option_fmap_compose.
  rewrite (list_find_ext _ (λ e, te_execution_id e = eid)).
  - by destruct (list_find _ execs) as [[??]|].
  - intros e. simpl. by case_bool_decide.
Qed.

Lemma update_execution_twice s1 now1 res1 s2 now2 res2 eid execs :
  update_execution s2 now2 res2 eid (update_execution s1 now1 res1 eid execs)
  = update_execution s2 now2 res2 eid execs.
Proof.
  unfold update_execution. rewrite <-list_fmap_compose.
  apply list_fmap_ext. intros _ e _. simpl.
  destruct (decide (te_execution_id e = eid)) as [He|He].
  - rewrite (bool_decide_true _ He). simpl. by rewrite (bool_decide_true _ He).
  - by rewrite !(bool_decide_false _ He).
Qed.

Lemma update_case_status_twice s1 s2 i rows :
  update_case_status s2 i (update_case_status s1 i rows)
  = update_case_status s2 i rows.
Proof.
  unfold update_case_status. rewrite <-list_fmap_compose.
  apply list_fmap_ext. intros _ r _. simpl.
  destruct (decide (tc_id r = i)) as [Hr|Hr].
  - rewrite (bool_decide_true _ Hr). simpl. by rewrite (bool_decide_true _ Hr).
  - by rewrite !(bool_decide_false _ Hr).
Qed.

Lemma update_test_no_row db eid status result now :
  select_execution eid (test_executions db) = None →
  update_test (Some db) (posted eid status result) now =
  (Some db, (Error "Execution ID not found", 404)).
Proof. intros Hnone. unfold update_test, posted. simpl. by rewrite Hnone. Qed.

(** C10: a POST /api/update_test whose execution_id matches no row of
    test_executions is answered 404 and leaves the whole store as it
    was: neither table is modified. *)
Theorem update_test_unknown_id_unchanged db eid status result now :
  eid ∉ (te_execution_id <$> test_executions db) →
  update_test (Some db) (posted eid status result) now =
  (Some db, (Error "Execution ID not found", 404)).
Proof. intros Hnot%select_execution_None. by apply update_test_no_row. Qed.

Lemma update_test_unknown_id_unchanged_witness :
  ("e-2" ∉ (te_execution_id <$> test_executions Scenario.seeded)) ∧
  update_test (Some Scenario.seeded) (posted "e-2" "completed" None) 120 =
  (Some Scenario.seeded, (Error "Execution ID not found", 404)).
Proof.
  split; [by_compute|].
  apply update_test_unknown_id_unchanged. by_compute.
Defined.

(** C9: whenever the execution_id of a POST /api/update_test exists in
    test_executions, the answer is 200 and the status string of the
    request, whatever it is, is written into the execution record
    (with the end time and the result) and into every test_cases row the
    record belongs to, whatever status that row had. *)
Theorem update_test_writes_status_verbatim db eid status result now :
  eid ∈ (te_execution_id <$> test_executions db) →
  ∃ e db',
    e ∈ test_executions db ∧ te_execution_id e = eid ∧
    update_test (Some db) (posted eid status result) now =
      (Some db', (Message "Test status updated", 200)) ∧
    (∃ e', e' ∈ test_executions db' ∧ te_execution_id e' = eid) ∧
    (∀ e', e' ∈ test_executions db' → te_execution_id e' = eid →
       te_status e' = status ∧ te_end_time e' = Some now ∧
       te_result e' = result) ∧
    (∀ r, r ∈ test_cases db → tc_id r = te_test_id e →
       with_status status r ∈ test_cases db') ∧
    (∀ r', r' ∈ test_cases db' → tc_id r' = te_test_id e →
       tc_status r' = status).
Proof.
  intros Hin. destruct (select_execution_is_Some _ _ Hin) as [e He].
  destruct (select_execution_Some _ _ _ He) as [Hmem Hid].
  exists e. eexists. split_and!; [done|done| | | | |].
  - unfold update_test, posted. simpl. by rewrite He.
  - simpl. exists (finish_execution status now result e). split; [|done].
    apply elem_of_update_execution. exists e. split; [done|].
    by rewrite bool_decide_true.
  - simpl. intros e' (e0 & _ & ->)%elem_of_update_execution.
    case_bool_decide; [done|]. by intros ?.
  - simpl. intros r Hr Hrid. apply elem_of_update_case_status.
    exists r. split; [done|]. by rewrite bool_decide_true.
  - simpl. intros r' (r & _ & ->)%elem_of_update_case_status.
    case_bool_decide; [done|]. by intros ?.
Qed.

Lemma update_test_writes_status_verbatim_witness :
  ∃ db, Scenario.reported = Some db ∧
  "e-1" ∈ (te_execution_id <$> test_executions db) ∧
  (∀ r, r ∈ test_cases db → tc_status r = "completed") ∧
  ∃ e db',
    e ∈ test_executions db ∧ te_execution_id e = "e-1" ∧
    update_test (Some db) (posted "e-1" "pending" None) 130 =
      (Some db', (Message "Test status updated", 200)) ∧
    (∃ e', e' ∈ test_executions db' ∧ te_execution_id e' = "e-1") ∧
    (∀ e', e' ∈ test_executions db' → te_execution_id e' = "e-1" →
       te_status e' = "pending" ∧ te_end_time e' = Some 130 ∧
       te_result e' = None) ∧
    (∀ r, r ∈ test_cases db → tc_id r = te_test_id e →
       with_status "pending" r ∈ test_cases db') ∧
    (∀ r', r' ∈ test_cases db' → tc_id r' = te_test_id e →
       tc_status r' = "pending").
Proof.
  eexists. split; [vm_compute; reflexivity|].
  split; [by_compute|]. split.
  - intros r Hr. apply list_elem_of_singleton in Hr. by subst r.
  - apply update_test_writes_status_verbatim. by_compute.
Defined.

(** C2, as stated, fails: the attempt [e-1] of the concrete run is
    finalized (completed, no longer running), yet a second report for it
    is answered 200 and changes the store. *)
Lemma update_test_repeated_report_counterexample :
  Forall (λ e, te_status e = "completed")
    (Scenario.executions Scenario.reported) ∧
  (update_test Scenario.reported (Scenario.report "failed") 130).2 =
    (Message "Test status updated", 200) ∧
  (update_test Scenario.reported (Scenario.report "failed") 130).1 ≠
    Scenario.reported.
Proof. split_and!; by_compute. Qed.

(** C2, amended: update_test answers 404 exactly when the execution_id
    matches no row of test_executions, whatever the status of the row; a
    repeated report for an attempt already finalized is answered 200
    again and is applied again, the store ending as if only the later
    report had been made. *)
Theorem update_test_not_found_iff_unknown_id db eid status result now :
  ((update_test (Some db) (posted eid status result) now).2.2 = 404 ↔
   eid ∉ (te_execution_id <$> test_executions db)) ∧
  (eid ∈ (te_execution_id <$> test_executions db) →
   ∀ status' result' now',
     let first := update_test (Some db) (posted eid status result) now in
     let again := update_test first.1 (posted eid status' result') now' in
     first.2 = (Message "Test status updated", 200) ∧
     again.2 = (Message "Test status updated", 200) ∧
     again.1 = (update_test (Some db) (posted eid status' result') now').1).
Proof.
  split.
  - split.
    + intros Hcode Hin.
      destruct (select_execution_is_Some _ _ Hin) as [e He].
      revert Hcode. unfold update_test, posted. simpl. by rewrite He.
    + intros Hnot%select_execution_None. by rewrite update_test_no_row.
  - intros Hin status' result' now'.
    destruct (select_execution_is_Some _ _ Hin) as [e He].
    unfold update_test, posted. simpl. rewrite He. simpl.
    rewrite select_execution_update, He. simpl.
    split_and!; [done..|].
    assert (te_test_id
              (if bool_decide (te_execution_id e = eid)
               then finish_execution status now result e else e)
            = te_test_id e) as -> by by case_bool_decide.
    by rewrite update_execution_twice, update_case_status_twice.
Qed.

Lemma update_test_not_found_iff_unknown_id_witness :
  ∃ db, Scenario.claimed = Some db ∧
  "e-1" ∈ (te_execution_id <$> test_executions db) ∧
  (update_test (update_test (Some db) (posted "e-1" "completed" None) 120).1
     (posted "e-1" "failed" None) 130).2 =
    (Message "Test status updated", 200) ∧
  (update_test (update_test (Some db) (posted "e-1" "completed" None) 120).1
     (posted "e-1" "failed" None) 130).1 =
    (update_test (Some db) (posted "e-1" "failed" None) 130).1.
Proof.
  eexists. split; [vm_compute; reflexivity|].
  split; [by_compute|].
  refine (let H := proj2 (update_test_not_found_iff_unknown_id _ "e-1"
                            "completed" None 120) _ "failed" None 130 in
          conj (proj1 (proj2 H)) (proj2 (proj2 H))).
  by_compute.
Defined.

End UpdateTest.

(** ** reset *)

Section Reset.
Import Server.

(** C8: a reset sets the status of every test_cases row to pending and
    changes nothing else of the row; the test_executions table is left
    exactly as it was, no row deleted or modified.  The endpoint
    [reset_tests] and the distributor's [reset_test_statuses] do the
    same. *)
Theorem reset_keeps_execution_history (db : Database) :
  ∃ db',
    reset_tests (Some db) =
      (Some db', (ResetMessage (length (test_cases db)), 200)) ∧
    Distributor.reset_test_statuses db = db' ∧
    Forall (λ r, tc_status r = "pending") (test_cases db') ∧
    test_cases db' = with_status "pending" <$> test_cases db ∧
    test_executions db' = test_executions db.
Proof.
  eexists. split_and!; [reflexivity..| |done|done].
  simpl. apply Forall_fmap, Forall_forall. by intros r _.
Qed.

End Reset.

(** ** next_test *)

Section NextTest.
Import Server.
Implicit Types (db : Database) (node_id : option string) (now : Z).

Lemma same_id_same_row (rows : list TestCase) r m :
  NoDup (tc_id <$> rows) → r ∈ rows → m ∈ rows → tc_id r = tc_id m → r = m.
Proof.
  induction rows as [|x rest IH]; csimpl; [by intros _ ?%elem_of_nil|].
  intros [Hx Hrest]%NoDup_cons [->|Hr]%elem_of_cons [->|Hm]%elem_of_cons Hid;
    [done| | |by apply IH].
  - destruct Hx. rewrite Hid. by apply list_elem_of_fmap_2.
  - destruct Hx. rewrite <-Hid. by apply list_elem_of_fmap_2.
Qed.

Lemma claim_Some db test_id node (uuid4 : string) now :
  uuid4 ∉ (te_execution_id <$> test_executions db) →
  claim db test_id node uuid4 now =
  Some {| test_cases := update_case_status "running" test_id (test_cases db);
          test_executions :=
            test_executions db ++
            [ {| te_execution_id := uuid4; te_test_id := test_id;
                 te_node_id := node; te_status := "running";
                 te_start_time := now; te_end_time := None;
                 te_result := None |} ];
          test_cases_seq := test_cases_seq db |}.
Proof.
  intros Hfresh. unfold claim, insert_execution. simpl.
  by rewrite bool_decide_false.
Qed.

Lemma claim_inv db test_id node (uuid4 : string) now db' :
  claim db test_id node uuid4 now = Some db' →
  test_cases db' = update_case_status "running" test_id (test_cases db) ∧
  test_executions db' =
    test_executions db ++
    [ {| te_execution_id := uuid4; te_test_id := test_id;
         te_node_id := node; te_status := "running";
         te_start_time := now; te_end_time := None; te_result := None |} ] ∧
  test_cases_seq db' = test_cases_seq db.
Proof.
  unfold claim, insert_execution. simpl.
  case_bool_decide; simpl; [done|]. by intros [= <-].
Qed.

(** C6: next_test hands out the pending row of lowest id, and answers
    404 "No tests available", the store unchanged, when no row is
    pending. *)
Theorem next_test_lowest_pending db node_id (uuid4 : string) now :
  ((∀ r, r ∈ test_cases db → tc_status r ≠ "pending") →
   next_test (Some db) node_id uuid4 now =
     (Some db, (Message "No tests available", 404))) ∧
  (∀ r0, r0 ∈ test_cases db → tc_status r0 = "pending" →
   uuid4 ∉ (te_execution_id <$> test_executions db) →
   ∃ m db',
     m ∈ test_cases db ∧ tc_status m = "pending" ∧
     (∀ r, r ∈ test_cases db → tc_status r = "pending" →
        tc_id m ≤ tc_id r) ∧
     next_test (Some db) node_id uuid4 now =
       (Some db',
        (Assignment uuid4 (tc_id m) (tc_test_name m) (tc_suite_name m)
           (tc_file_path m), 200))).
Proof.
  split.
  - intros Hnone%select_next_pending_None.
    unfold next_test. simpl. by rewrite Hnone.
  - intros r0 Hr0 Hp0 Hfresh.
    destruct (select_next_pending (test_cases db)) as [m|] eqn:E.
    + destruct (select_next_pending_Some _ _ E) as (Hm & Hpm & Hle).
      exists m. eexists. split_and!; [done..|].
      unfold next_test. simpl. rewrite E.
      by rewrite (claim_Some _ _ _ _ _ Hfresh).
    + destruct (proj1 (select_next_pending_None _) E r0 Hr0 Hp0).
Qed.

Lemma next_test_lowest_pending_witness :
  (∃ db, Scenario.claimed = Some db ∧
     (∀ r, r ∈ test_cases db → tc_status r ≠ "pending") ∧
     next_test (Some db) (Some "pod-b") "e-2" 111 =
       (Some db, (Message "No tests available", 404))) ∧
  (∃ m db',
     m ∈ test_cases Scenario.seeded2 ∧ tc_status m = "pending" ∧
     (∀ r, r ∈ test_cases Scenario.seeded2 → tc_status r = "pending" →
        tc_id m ≤ tc_id r) ∧
     next_test (Some Scenario.seeded2) (Some "pod-a") "e-1" 110 =
       (Some db',
        (Assignment "e-1" (tc_id m) (tc_test_name m) (tc_suite_name m)
           (tc_file_path m), 200))).
Proof.
  split.
  - eexists. split; [vm_compute; reflexivity|].
    assert (∀ r, r ∈ test_cases (mkDatabase
              [mkTestCase 1 "Valid Login" "tests/auth/login.robot" "auth"
                 100 "running"]
              [mkTestExecution "e-1" 1 "pod-a" "running" 110 None None] 1) →
            tc_status r ≠ "pending") as Hnone.
    { intros r Hr. apply list_elem_of_singleton in Hr. by subst r. }
    split; [exact Hnone|].
    exact (proj1 (next_test_lowest_pending _ (Some "pod-b") "e-2" 111) Hnone).
  - apply (proj2 (next_test_lowest_pending Scenario.seeded2 (Some "pod-a")
                    "e-1" 110)
             (mkTestCase 1 "Valid Login" "tests/auth/login.robot" "auth"
                100 "pending")); by_compute.
Defined.

(** C3, as stated, fails: in the concrete run [pod-a] was given the test
    at time 110 and never reported; at time 1000000, far beyond an hour's
    lease, a call of next_test is answered 404 and changes nothing: the
    attempt is still running and the test is still running, not
    pending. *)
Lemma next_test_no_reclaim_counterexample :
  Scenario.executions Scenario.claimed ≠ [] ∧
  Forall (λ e, te_status e = "running" ∧ te_start_time e + 3600 < 1000000)
    (Scenario.executions Scenario.claimed) ∧
  next_test Scenario.claimed (Some "pod-b") "e-2" 1000000 =
    (Scenario.claimed, (Message "No tests available", 404)) ∧
  Forall (λ r, tc_status r = "running") (Scenario.cases Scenario.claimed).
Proof. split_and!; by_compute. Qed.

(** C3, amended: the server has no lease and no reclaim.  Whatever the
    time of the call, next_test leaves every existing execution record
    as it is (it can only append the record of the new claim) and leaves
    every test_cases row that is not pending as it is ([id] being the
    primary key of the table), so an item left running by a worker that
    never reports is still running after the call; while no row is
    pending the answer is 404 and the store is unchanged. *)
Theorem next_test_never_reclaims db node_id (uuid4 : string) now :
  NoDup (tc_id <$> test_cases db) →
  ∃ db' response,
    next_test (Some db) node_id uuid4 now = (Some db', response) ∧
    test_executions db `prefix_of` test_executions db' ∧
    (∀ r, r ∈ test_cases db → tc_status r ≠ "pending" →
       r ∈ test_cases db') ∧
    ((∀ r, r ∈ test_cases db → tc_status r ≠ "pending") →
       db' = db ∧ response = (Message "No tests available", 404)).
Proof.
  intros Hkey. unfold next_test. simpl.
  destruct (select_next_pending (test_cases db)) as [m|] eqn:E.
  - destruct (select_next_pending_Some _ _ E) as (Hm & Hpm & _).
    destruct (claim db (tc_id m) _ uuid4 now) as [db'|] eqn:C.
    + apply claim_inv in C as (Hc & He & _).
      exists db'. eexists. split_and!; [done| | |].
      * rewrite He. by apply prefix_app_r.
      * intros r Hr Hnp. rewrite Hc. apply elem_of_update_case_status.
        exists r. split; [done|]. case_bool_decide as Hid; [|done].
        destruct Hnp. by rewrite (same_id_same_row _ r m Hkey Hr Hm Hid).
      * intros Hnone. by destruct (Hnone m Hm).
    + exists db. eexists. split_and!; [done..|].
      intros Hnone. by destruct (Hnone m Hm).
  - exists db. eexists. split_and!; done.
Qed.

Lemma next_test_never_reclaims_witness :
  NoDup (tc_id <$> test_cases Scenario.running_db) ∧
  Forall (λ r, tc_status r = "running") (test_cases Scenario.running_db) ∧
  Forall (λ e, te_status e = "running" ∧ te_start_time e + 3600 < 1000000)
    (test_executions Scenario.running_db) ∧
  ∃ db' response,
    next_test (Some Scenario.running_db) (Some "pod-b") "e-2" 1000000 =
      (Some db', response) ∧
    test_executions Scenario.running_db `prefix_of` test_executions db' ∧
    (∀ r, r ∈ test_cases Scenario.running_db → tc_status r ≠ "pending" →
       r ∈ test_cases db') ∧
    ((∀ r, r ∈ test_cases Scenario.running_db → tc_status r ≠ "pending") →
       db' = Scenario.running_db ∧
       response = (Message "No tests available", 404)).
Proof.
  split; [by_compute|]. split; [by_compute|]. split; [by_compute|].
  apply next_test_never_reclaims. by_compute.
Defined.

End NextTest.

(** ** store_in_database *)

Section StoreInDatabase.
Import Parser.

Lemma max_id_nonneg rows : 0 ≤ max_id rows.
Proof. induction rows as [|r rest IH]; simpl; lia. Qed.

Lemma max_id_snoc rows r : max_id (rows ++ [r]) = Z.max (max_id rows) (tc_id r).
Proof.
  induction rows as [|x rest IH]; simpl; [|rewrite IH]; lia.
Qed.

(** The inserts of [store_in_database], from any table on: the rows are
    appended in the order of [tests], with consecutive ids above
    [base]. *)
Lemma foldl_insert_test_case now tests : ∀ db0,
  let base := Z.max (test_cases_seq db0) (max_id (test_cases db0)) in
  let db' := foldl (insert_test_case now) db0 tests in
  test_executions db' = test_executions db0 ∧
  ∃ added,
    test_cases db' = test_cases db0 ++ added ∧
    tc_test_name <$> added = test_name <$> tests ∧
    tc_file_path <$> added = file_path <$> tests ∧
    tc_suite_name <$> added = suite_name <$> tests ∧
    Forall (λ r, tc_status r = "pending" ∧ tc_parsed_date r = now) added ∧
    tc_id <$> added = seqZ (base + 1) (Z.of_nat (length tests)).
Proof.
  induction tests as [|t ts IH]; intros db0; simpl.
  - split; [done|]. exists []. rewrite app_nil_r. by split_and!.
  - destruct (IH (insert_test_case now db0 t)) as (He & added & Hc & Hn & Hf & Hs & Hall & Hid).
    split; [by rewrite He|].
    eexists (_ :: added). split_and!.
    + rewrite Hc. simpl. by rewrite <-app_assoc.
    + csimpl. by rewrite Hn.
    + csimpl. by rewrite Hf.
    + csimpl. by rewrite Hs.
    + by apply Forall_cons.
    + csimpl. rewrite Hid. simpl. rewrite max_id_snoc. simpl.
      pose proof (max_id_nonneg (test_cases db0)).
      rewrite (seqZ_cons (_ + 1) (Z.of_nat (S _))) by lia.
      f_equal. f_equal; lia.
Qed.

(** C7, as stated, fails: while the attempt of [pod-a] is running, a
    call of store_in_database returns normally and has replaced the
    catalog. *)
Lemma store_in_database_while_running_counterexample :
  Exists (λ e, te_status e = "running")
    (test_executions Scenario.running_db) ∧
  test_cases (store_in_database Scenario.running_db [Scenario.logout] 200).1
    = [mkTestCase 2 "Logout" "tests/auth/logout.robot" "auth" 200 "pending"] ∧
  test_cases (store_in_database Scenario.running_db [Scenario.logout] 200).1
    ≠ test_cases Scenario.running_db.
Proof. split_and!; by_compute. Qed.

(** C7, amended: store_in_database replaces the catalog wholesale and
    unconditionally, also while an execution is running; it has no
    failure: the new test_cases table holds exactly the given tests, in
    their order, pending, with fresh consecutive ids, and
    test_executions is left as it was. *)
Theorem store_in_database_replaces_unconditionally
    (db : Database) (tests : list ParsedTest) (now : Z) :
  let db' := (store_in_database db tests now).1 in
  test_executions db' = test_executions db ∧
  tc_test_name <$> test_cases db' = test_name <$> tests ∧
  tc_file_path <$> test_cases db' = file_path <$> tests ∧
  tc_suite_name <$> test_cases db' = suite_name <$> tests ∧
  Forall (λ r, tc_status r = "pending" ∧ tc_parsed_date r = now)
    (test_cases db') ∧
  tc_id <$> test_cases db' =
    seqZ (Z.max (test_cases_seq db) 0 + 1) (Z.of_nat (length tests)).
Proof.
  unfold store_in_database. simpl.
  destruct (foldl_insert_test_case now tests
              {| test_cases := []; test_executions := test_executions db;
                 test_cases_seq := test_cases_seq db |})
    as (He & added & Hc & Hn & Hf & Hs & Hall & Hid).
  simpl in *. rewrite Hc. by split_and!.
Qed.

End StoreInDatabase.

(** ** Requests in flight *)

Section Claims.
Import Server Concurrent.
Implicit Types (s : State) (i : nat) (q : Request).

(** C1, as stated, fails: two requests whose SELECTs both run before
    either write are both given test 1, and test 1 ends with two running
    execution records. *)
Lemma next_test_interleaved_counterexample :
  assigned_tests
    (run advance [0; 1; 0; 1]%nat (Scenario.two_requests Scenario.seeded))
    = [1; 1] ∧
  te_execution_id <$>
    active 1 (test_executions (db
      (run advance [0; 1; 0; 1]%nat (Scenario.two_requests Scenario.seeded))))
    = ["e-1"; "e-2"].
Proof. split; vm_compute; reflexivity. Qed.

(** [serve] is [next_test] run alone: the store and the answer of a
    request served whole are those of the handler. *)
Lemma serve_next_test s i node_id (uuid4 : string) now :
  requests s !! i = Some (Received node_id uuid4 now) →
  serve i s =
  {| db := from_option id (db s)
             (next_test (Some (db s)) node_id uuid4 now).1;
     requests :=
       <[i := Responded (next_test (Some (db s)) node_id uuid4 now).2]>
         (requests s) |}.
Proof.
  intros Hi. pose proof (lookup_lt_Some _ _ _ Hi) as Hlt.
  unfold serve, next_test. simpl. unfold advance at 2. rewrite Hi.
  destruct (select_next_pending (test_cases (db s))) as [m|] eqn:E.
  - unfold advance. simpl. rewrite list_lookup_insert_eq by done.
    destruct (claim (db s) (tc_id m) _ uuid4 now) as [db'|]; simpl;
      by rewrite list_insert_insert_eq.
  - unfold advance. simpl. by rewrite list_lookup_insert_eq by done.
Qed.

Lemma serve_settled s i :
  Forall settled (requests s) →
  (∀ node_id uuid4 now, requests s !! i ≠ Some (Received node_id uuid4 now)) →
  serve i s = s.
Proof.
  intros Hall Hi.
  assert (advance i s = s) as Hs; [|unfold serve; by rewrite !Hs].
  unfold advance.
  destruct (requests s !! i) as [[n u t|n u t m|r]|] eqn:E; [| |done..].
  - by destruct (Hi n u t).
  - by destruct (Forall_lookup_1 _ _ _ _ Hall E).
Qed.

Lemma active_snoc t execs e :
  active t (execs ++ [e]) =
  active t execs ++
  (if decide (te_test_id e = t ∧ te_status e = "running") then [e] else []).
Proof. unfold active. by rewrite filter_app. Qed.

Lemma assigned_insert_same (l : list Request) i q q' :
  l !! i = Some q → assigned q = None → assigned q' = None →
  omap assigned (<[i := q']> l) = omap assigned l.
Proof.
  intros Hi Hq Hq'. pose proof (lookup_lt_Some _ _ _ Hi).
  rewrite insert_take_drop by done.
  rewrite <-(take_drop_middle l i q Hi) at 3.
  rewrite !omap_app. simpl. by rewrite Hq, Hq'.
Qed.

Lemma assigned_insert_new (l : list Request) i q q' t :
  l !! i = Some q → assigned q = None → assigned q' = Some t →
  ∃ l1 l2, omap assigned l = l1 ++ l2 ∧
           omap assigned (<[i := q']> l) = l1 ++ t :: l2.
Proof.
  intros Hi Hq Hq'. pose proof (lookup_lt_Some _ _ _ Hi).
  exists (omap assigned (take i l)), (omap assigned (drop (S i) l)).
  rewrite insert_take_drop by done.
  rewrite <-(take_drop_middle l i q Hi) at 1.
  rewrite !omap_app. simpl. by rewrite Hq, Hq'.
Qed.

Lemma settled_insert (l : list Request) i q :
  Forall settled l → settled q → Forall settled (<[i := q]> l).
Proof. intros. by apply Forall_insert. Qed.

Lemma serve_consistent s i : consistent s → consistent (serve i s).
Proof.
  intros [H1 H2 H3 H4 H5].
  destruct (requests s !! i) as [[n u t|n u t m|r]|] eqn:Hi.
  - rewrite (serve_next_test _ _ _ _ _ Hi). unfold next_test. simpl.
    destruct (select_next_pending (test_cases (db s))) as [m|] eqn:E;
      [destruct (claim (db s) (tc_id m) _ u t) as [db'|] eqn:C|]; simpl.
    + apply claim_inv in C as (Hc & He & _).
      destruct (select_next_pending_Some _ _ E) as (Hm & Hpm & _).
      pose proof (H2 m Hm Hpm) as Hfree.
      destruct (assigned_insert_new (requests s) i _
                  (Responded (assignment u m)) (tc_id m) Hi eq_refl eq_refl)
        as (l1 & l2 & Hold & Hnew).
      unfold assigned_tests in H4, H5. rewrite Hold in H4, H5.
      assert (tc_id m ∉ l1 ++ l2) as Hnew_id.
      { intros Hin. by destruct (H5 _ Hin). }
      constructor; simpl.
      * intros t'. rewrite He, active_snoc, length_app. simpl.
        case_decide as Hd; simpl.
        -- destruct Hd as [<- _]. rewrite Hfree. simpl. lia.
        -- specialize (H1 t'). lia.
      * intros r' Hr' Hp'. rewrite Hc in Hr'.
        apply elem_of_update_case_status in Hr' as (r & Hr & ->).
        case_bool_decide as Hid; [done|].
        rewrite He, active_snoc. simpl. rewrite (H2 r Hr Hp').
        rewrite decide_False; [done|]. intros [? _]. congruence.
      * by apply settled_insert.
      * unfold assigned_tests. simpl. rewrite Hnew.
        apply NoDup_app in H4 as (Hn1 & Hdisj & Hn2).
        apply not_elem_of_app in Hnew_id as [Hnot1 Hnot2].
        apply NoDup_app. split_and!; [done| |by apply NoDup_cons].
        intros x Hx [->|Hx2]%elem_of_cons; [done|]. by apply (Hdisj x).
      * unfold assigned_tests. simpl. rewrite Hnew.
        intros t' Ht'. rewrite He, active_snoc. simpl.
        intros [Hnil Hlast]%app_eq_nil.
        apply elem_of_app in Ht' as [Ht'|[->|Ht']%elem_of_cons].
        -- apply (H5 t'); [|done]. apply elem_of_app. by left.
        -- by rewrite decide_True in Hlast.
        -- apply (H5 t'); [|done]. apply elem_of_app. by right.
    + constructor; simpl; [done|done|by apply settled_insert| |].
      * unfold assigned_tests. simpl.
        by rewrite (assigned_insert_same _ _ _ _ Hi).
      * unfold assigned_tests. simpl.
        by rewrite (assigned_insert_same _ _ _ _ Hi).
    + constructor; simpl; [done|done|by apply settled_insert| |].
      * unfold assigned_tests. simpl.
        by rewrite (assigned_insert_same _ _ _ _ Hi).
      * unfold assigned_tests. simpl.
        by rewrite (assigned_insert_same _ _ _ _ Hi).
  - by destruct (Forall_lookup_1 _ _ _ _ H3 Hi).
  - rewrite serve_settled; [done|done|]. intros ???. by rewrite Hi.
  - rewrite serve_settled; [done|done|]. intros ???. by rewrite Hi.
Qed.

Lemma run_serve_consistent schedule s :
  consistent s → consistent (run serve schedule s).
Proof.
  revert s. induction schedule as [|i rest IH]; intros s Hs; [done|].
  simpl. by apply IH, serve_consistent.
Qed.

Lemma fresh_unassigned (l : list Request) :
  Forall fresh l → omap assigned l = [] ∧ Forall settled l.
Proof.
  induction 1 as [|q l Hq _ [IH1 IH2]]; [done|].
  destruct q; try done. simpl. by split; [|apply Forall_cons].
Qed.

(** C1, amended: when every next_test request is served whole, its
    write following its SELECT with no step of another request between
    them, no test is given to two requests and no test has more than
    one running execution record, after any number of requests in any
    order -- from a store in which that holds and no pending test has a
    running execution.  The handler itself takes no lock and opens its
    transaction only at the UPDATE, so it does not make the SELECT and
    the write one unit. *)
Theorem next_test_served_whole_mutual_exclusion s (schedule : list nat) :
  Forall fresh (requests s) →
  (∀ t, (length (active t (test_executions (db s))) ≤ 1)%nat) →
  (∀ r, r ∈ test_cases (db s) → tc_status r = "pending" →
        active (tc_id r) (test_executions (db s)) = []) →
  NoDup (assigned_tests (run serve schedule s)) ∧
  ∀ t, (length (active t (test_executions (db (run serve schedule s))))
        ≤ 1)%nat.
Proof.
  intros [Hnone Hsettled]%fresh_unassigned H1 H2.
  assert (consistent s) as Hs.
  { constructor; [done..| |]; unfold assigned_tests; rewrite Hnone.
    - apply NoDup_nil_2.
    - by intros t ?%elem_of_nil. }
  destruct (run_serve_consistent schedule s Hs). by split.
Qed.

Lemma next_test_served_whole_mutual_exclusion_witness :
  Forall fresh (requests (Scenario.two_requests Scenario.seeded2)) ∧
  assigned_tests
    (run serve [1; 0]%nat (Scenario.two_requests Scenario.seeded2))
    = [2; 1] ∧
  NoDup (assigned_tests
           (run serve [1; 0]%nat (Scenario.two_requests Scenario.seeded2))) ∧
  ∀ t, (length (active t (test_executions (db
          (run serve [1; 0]%nat (Scenario.two_requests Scenario.seeded2)))))
        ≤ 1)%nat.
Proof.
  split; [by_compute|]. split; [vm_compute; reflexivity|].
  apply next_test_served_whole_mutual_exclusion.
  - by_compute.
  - intros t. simpl. lia.
  - intros r _ _. reflexivity.
Defined.

End Claims.

(** ** The completion monitor *)

Section Monitor.
Import Merger.

(** The merge is started at most once in a run of the monitor, and the
    run ends with it. *)
Lemma monitor_merges_at_most_once interval merged reads :
  let '(events, exit) := monitor_and_merge interval merged reads in
  (length (filter (λ ev, ev = MergeTestResults) events) ≤ 1)%nat ∧
  (MergeTestResults ∈ events →
     last events = Some MergeTestResults ∧ exit ≠ Looping).
Proof.
  induction reads as [|file later IH]; simpl.
  - split; [lia|]. by intros ?%elem_of_nil.
  - destruct (monitor_and_merge interval merged later) as [events exit].
    destruct IH as [IH1 IH2].
    destruct (get_test_status file) as [st|];
      [destruct (all_completed st); [|case_bool_decide]|].
    + split; [simpl; lia|]. intros _. split; [done|]. by destruct merged.
    + split; [simpl; lia|]. by intros ?%elem_of_nil.
    + split; [by rewrite filter_cons_False|].
      intros [?|Hin]%elem_of_cons; [done|]. destruct (IH2 Hin) as [Hl ?].
      split; [|done]. destruct events; [done|]. by rewrite last_cons, Hl.
    + split; [by rewrite filter_cons_False|].
      intros [?|Hin]%elem_of_cons; [done|]. destruct (IH2 Hin) as [Hl ?].
      split; [|done]. destruct events; [done|]. by rewrite last_cons, Hl.
Qed.

(** C4: the monitor is to start the merge only once no test is pending
    or running.  The code compares the number of test_cases rows with the
    number of finished test_executions rows instead.  After one full run
    and a reset the only test is pending, [check_test_completion] says
    the run is not complete, and the monitor merges on its first read;
    after the second run has finished, no test is pending or running and
    the monitor never merges, however often it reads. *)
Theorem monitor_condition_counts_executions :
  (count_cases "pending" (Scenario.cases Scenario.rerun) = 1%nat ∧
   Distributor.check_test_completion <$> Scenario.rerun = Some false ∧
   all_completed <$> get_test_status Scenario.rerun = Some true ∧
   monitor_and_merge 10 true [Scenario.rerun] =
     ([Sleep 5; MergeTestResults], Break)) ∧
  (Distributor.check_test_completion <$> Scenario.rerun_finished = Some true ∧
   all_completed <$> get_test_status Scenario.rerun_finished = Some false ∧
   ∀ n, monitor_and_merge 10 true (replicate n Scenario.rerun_finished) =
        (replicate n (Sleep 10), Looping)).
Proof.
  split; [split_and!; vm_compute; reflexivity|].
  split_and!; [vm_compute; reflexivity..|].
  induction n as [|n IH]; [done|].
  cbn [replicate monitor_and_merge]. rewrite IH.
  by vm_compute.
Qed.

End Monitor.

(** ** The worker loop *)

Section WorkerLoop.
Import Worker.

(** One iteration of the retry loop on a reply that is retried: the
    delay is slept and doubled unless the reply is a request exception
    on the last attempt. *)
Lemma attempts_retried api sent attempt todo delay bound :
  retried (api sent) →
  attempts api sent attempt (S todo) delay bound =
  match api sent with
  | RequestException =>
      if bool_decide (attempt < max_retries - 1)%nat
      then
        let '(fetch, slept, n) :=
          attempts api (S sent) (S attempt) todo (delay * 2) true in
        (fetch, delay :: slept, n)
      else (NoTest, [], S sent)
  | Response _ _ _ =>
      let '(fetch, slept, n) :=
        attempts api (S sent) (S attempt) todo (delay * 2) true in
      (fetch, delay :: slept, n)
  end.
Proof.
  simpl. destruct (api sent) as [code text json|]; [|done].
  intros [-> Htext]. by rewrite Htext.
Qed.

(** Any other status on the first attempt: [time.sleep] is reached with
    [time] unbound, and the exception leaves [get_next_test]; [main]
    prints it and returns. *)
Lemma get_next_test_unbound_time api run_test sent code text json :
  api sent = Response code text json →
  code ≠ 200 → code ≠ 404 → code ≠ 500 →
  get_next_test api sent = (Raised "UnboundLocalError", [], S sent) ∧
  ∀ tests_run fuel,
    loop api run_test sent tests_run (S fuel) =
    ExceptionInMain "UnboundLocalError".
Proof.
  intros Hr H200 H404 H500.
  assert (get_next_test api sent = (Raised "UnboundLocalError", [], S sent))
    as Hget.
  { unfold get_next_test. simpl. rewrite Hr.
    by rewrite !bool_decide_false by done. }
  split; [done|]. intros tests_run fuel. unfold loop. simpl. by rewrite Hget.
Qed.

(** C5, as stated, fails: when all three requests of [get_next_test]
    raise a request exception the retries are exhausted, and [main]
    ends as it does on a 404, reporting the run completed; the loop is
    not treated as failed. *)
Lemma worker_exhausted_retries_counterexample :
  get_next_test (λ _, RequestException) 0 = (NoTest, [1; 2], 3%nat) ∧
  main true (λ _, RequestException) (λ _ _, Ran (Some 0)) 1 = Completed 0 ∧
  main true (λ _, Response 404 "No tests available" None)
    (λ _ _, Ran (Some 0)) 1 = Completed 0 ∧
  ¬ failed (main true (λ _, RequestException) (λ _ _, Ran (Some 0)) 1).
Proof. split_and!; [vm_compute; reflexivity..|]. vm_compute. tauto. Qed.

(** C5, amended: on request exceptions and on 500 replies whose text
    contains "Database error", get_next_test retries with a delay that
    starts at 1 second and doubles -- 1, 2, and 4 after a third "Database
    error" reply, none after a third request exception -- for 3 requests
    at most; when these are used up it returns None, which the worker
    loop does not tell from "no more tests": the loop ends normally and
    the run is reported completed, not failed. *)
Theorem worker_retries_then_ends_as_no_work
    (api : nat → Reply) (run_test : nat → TestData → Run) (sent : nat) :
  (∀ k, (k < 3)%nat → retried (api (sent + k)%nat)) →
  get_next_test api sent =
    (NoTest,
     [1; 2] ++ match api (sent + 2)%nat with
               | Response _ _ _ => [4]
               | RequestException => []
               end,
     (sent + 3)%nat) ∧
  ∀ tests_run fuel,
    loop api run_test sent tests_run (S fuel) = Completed tests_run.
Proof.
  intros Hall.
  pose proof (Hall 0%nat ltac:(lia)) as H0.
  pose proof (Hall 1%nat ltac:(lia)) as H1.
  pose proof (Hall 2%nat ltac:(lia)) as H2.
  rewrite Nat.add_0_r in H0.
  replace (sent + 1)%nat with (S sent) in H1 by lia.
  replace (sent + 2)%nat with (S (S sent)) in * by lia.
  replace (sent + 3)%nat with (S (S (S sent))) by lia.
  assert (get_next_test api sent =
            (NoTest,
             [1; 2] ++ match api (S (S sent)) with
                       | Response _ _ _ => [4]
                       | RequestException => []
                       end,
             S (S (S sent)))) as Hget.
  { unfold get_next_test, max_retries.
    rewrite (attempts_retried _ _ _ _ _ _ H0).
    rewrite (attempts_retried _ _ _ _ _ _ H1).
    rewrite (attempts_retried _ _ _ _ _ _ H2).
    by destruct (api sent), (api (S sent)), (api (S (S sent))). }
  split; [done|].
  intros tests_run fuel. unfold loop. simpl. by rewrite Hget.
Qed.

Lemma worker_retries_then_ends_as_no_work_witness :
  (∀ k, (k < 3)%nat →
     retried ((λ _, Response 500 "Database error: database is locked" None)
                (0 + k)%nat)) ∧
  get_next_test
    (λ _, Response 500 "Database error: database is locked" None) 0
    = (NoTest, [1; 2; 4], 3%nat) ∧
  ∀ tests_run fuel,
    loop (λ _, Response 500 "Database error: database is locked" None)
      (λ _ _, Ran (Some 0)) 0 tests_run (S fuel) = Completed tests_run.
Proof.
  assert (∀ k, (k < 3)%nat →
     retried ((λ _, Response 500 "Database error: database is locked" None)
                (0 + k)%nat)) as Hall.
  { intros k _. split; reflexivity. }
  split; [exact Hall|].
  exact (worker_retries_then_ends_as_no_work _ (λ _ _, Ran (Some 0)) 0%nat
           Hall).
Defined.

End WorkerLoop.

(** ** A single run of workers *)

Section SingleRun.
Import Server Run.
Implicit Types (db : Database) (node_id : option string) (now : Z).

Lemma same_key_same_row {A K} (key : A → K) (l : list A) x y :
  NoDup (key <$> l) → x ∈ l → y ∈ l → key x = key y → x = y.
Proof.
  induction l as [|a l IH]; csimpl; [by intros _ ?%elem_of_nil|].
  intros [Ha Hl]%NoDup_cons [->|Hx]%elem_of_cons [->|Hy]%elem_of_cons Hk;
    [done| | |by apply IH].
  - destruct Ha. rewrite Hk. by apply list_elem_of_fmap_2.
  - destruct Ha. rewrite <-Hk. by apply list_elem_of_fmap_2.
Qed.

Lemma update_case_status_keys s i (rows : list TestCase) :
  tc_id <$> update_case_status s i rows = tc_id <$> rows.
Proof.
  unfold update_case_status. rewrite <-list_fmap_compose.
  apply list_fmap_ext. intros ? r _. simpl. by case_bool_decide.
Qed.

Lemma update_execution_keys s now res eid (execs : list TestExecution) :
  te_execution_id <$> update_execution s now res eid execs =
  te_execution_id <$> execs.
Proof.
  unfold update_execution. rewrite <-list_fmap_compose.
  apply list_fmap_ext. intros ? e _. simpl. by case_bool_decide.
Qed.

Lemma update_execution_tests s now res eid (execs : list TestExecution) :
  te_test_id <$> update_execution s now res eid execs = te_test_id <$> execs.
Proof.
  unfold update_execution. rewrite <-list_fmap_compose.
  apply list_fmap_ext. intros ? e _. simpl. by case_bool_decide.
Qed.

Lemma claim_fresh db test_id node (uuid4 : string) now db' :
  claim db test_id node uuid4 now = Some db' →
  uuid4 ∉ (te_execution_id <$> test_executions db).
Proof.
  unfold claim, insert_execution. simpl. by case_bool_decide.
Qed.

Lemma status_of_finished returncode :
  Runner.status_of returncode = "completed" ∨
  Runner.status_of returncode = "failed".
Proof. destruct returncode as [[| |]|]; simpl; auto. Qed.

Lemma next_test_single_run db node_id (uuid4 : string) now :
  single_run db →
  ∃ db', (next_test (Some db) node_id uuid4 now).1 = Some db' ∧
         single_run db'.
Proof.
  intros [Ha Hb Hc Hd He]. unfold next_test. simpl.
  destruct (select_next_pending (test_cases db)) as [m|] eqn:E;
    [|by exists db].
  destruct (select_next_pending_Some _ _ E) as (Hm & Hpm & _).
  assert (∀ e, e ∈ test_executions db → te_test_id e ≠ tc_id m) as Hnone.
  { intros e Hin Heq. destruct (Hd e Hin) as [Hst (r & Hr & Hid & Hs)].
    assert (r = m) as -> by (apply (same_key_same_row tc_id _ _ _ Ha Hr Hm);
                             congruence).
    rewrite Hpm in Hs. destruct Hst as [?|[?|?]]; congruence. }
  destruct (claim db (tc_id m) _ uuid4 now) as [db'|] eqn:C;
    [|by exists db].
  pose proof (claim_fresh _ _ _ _ _ _ C) as Hfresh.
  apply claim_inv in C as (Hc' & He' & _).
  exists db'. split; [done|]. constructor.
  - by rewrite Hc', update_case_status_keys.
  - rewrite He', fmap_app. apply NoDup_app.
    split_and!; [done| |apply NoDup_singleton].
    intros x Hx ->%list_elem_of_singleton. done.
  - rewrite He', fmap_app. apply NoDup_app.
    split_and!; [done| |apply NoDup_singleton].
    intros x (e & -> & Hin)%list_elem_of_fmap Heq%list_elem_of_singleton.
    by apply (Hnone e Hin).
  - rewrite He', Hc'.
    intros e [Hin| ->%list_elem_of_singleton]%elem_of_app.
    + destruct (Hd e Hin) as [Hst (r & Hr & Hid & Hs)]. split; [done|].
      exists r. split; [|done]. apply elem_of_update_case_status.
      exists r. split; [done|]. rewrite bool_decide_false; [done|].
      intros Heq. apply (Hnone e Hin). congruence.
    + simpl. split; [by left|]. exists (with_status "running" m).
      split; [|done]. apply elem_of_update_case_status.
      exists m. split; [done|]. by rewrite bool_decide_true.
  - rewrite He', Hc'.
    intros r' (r & Hr & ->)%elem_of_update_case_status.
    case_bool_decide as Hid.
    + right. eexists. split; [apply elem_of_app; right;
                              by apply list_elem_of_singleton|done].
    + destruct (He r Hr) as [?|(e & Hin & Heq)]; [by left|].
      right. exists e. split; [|done]. apply elem_of_app. by left.
Qed.

Lemma update_test_single_run db eid returncode result now :
  single_run db →
  ∃ db', (update_test (Some db)
            (posted eid (Runner.status_of returncode) result) now).1
         = Some db' ∧ single_run db'.
Proof.
  intros [Ha Hb Hc Hd He]. unfold update_test, posted. simpl.
  destruct (select_execution eid (test_executions db)) as [e0|] eqn:S;
    [|by exists db].
  destruct (select_execution_Some _ _ _ S) as [Hin0 Hid0].
  eexists. split; [done|]. constructor; simpl.
  - by rewrite update_case_status_keys.
  - by rewrite update_execution_keys.
  - by rewrite update_execution_tests.
  - intros e' (e & Hin & ->)%elem_of_update_execution.
    case_bool_decide as Heq.
    + assert (e = e0) as ->
        by (apply (same_key_same_row te_execution_id _ _ _ Hb Hin Hin0);
            congruence).
      simpl. split; [right; apply status_of_finished|].
      destruct (Hd e0 Hin0) as [_ (r & Hr & Hrid & _)].
      exists (with_status (Runner.status_of returncode) r).
      split; [|done]. apply elem_of_update_case_status.
      exists r. split; [done|]. by rewrite bool_decide_true.
    + destruct (Hd e Hin) as [Hst (r & Hr & Hrid & Hrs)]. split; [done|].
      exists r. split; [|done]. apply elem_of_update_case_status.
      exists r. split; [done|]. rewrite bool_decide_false; [done|].
      intros Hr0. destruct Heq.
      assert (e = e0) as ->
        by (apply (same_key_same_row te_test_id _ _ _ Hc Hin Hin0);
            congruence).
      done.
  - intros r' (r & Hr & ->)%elem_of_update_case_status.
    case_bool_decide as Hid.
    + right. exists (finish_execution (Runner.status_of returncode) now
                       result e0).
      split; [|done]. apply elem_of_update_execution.
      exists e0. split; [done|]. by rewrite bool_decide_true.
    + destruct (He r Hr) as [?|(e & Hin & Heq)]; [by left|]. right.
      eexists. split; [apply elem_of_update_execution; by exists e|].
      by case_bool_decide.
Qed.

Lemma after_single_run calls : ∀ db,
  single_run db → Forall worker_call calls →
  ∃ db', after (Some db) calls = Some db' ∧ single_run db'.
Proof.
  induction calls as [|c calls IH]; intros db Hdb Hcalls; [by exists db|].
  apply Forall_cons in Hcalls as [Hc Hcalls]. unfold after. simpl.
  destruct c as [node_id uuid4 now|data now|]; simpl in *; [| |done].
  - destruct (next_test_single_run db node_id uuid4 now Hdb)
      as (db1 & -> & Hdb1). by apply IH.
  - destruct Hc as (eid & returncode & result & ->).
    destruct (update_test_single_run db eid returncode result now Hdb)
      as (db1 & -> & Hdb1). by apply IH.
Qed.

Lemma seeded_single_run db tests now :
  test_executions db = [] →
  single_run (Parser.store_in_database db tests now).1.
Proof.
  intros Hnone. unfold Parser.store_in_database. simpl.
  destruct (foldl_insert_test_case now tests
              {| test_cases := []; test_executions := test_executions db;
                 test_cases_seq := test_cases_seq db |})
    as (He & added & Hc & _ & _ & _ & Hall & Hid).
  simpl in *. constructor; rewrite ?He, ?Hc, ?Hnone; simpl.
  - rewrite Hid. apply NoDup_seqZ.
  - apply NoDup_nil_2.
  - apply NoDup_nil_2.
  - by intros e ?%elem_of_nil.
  - intros r Hr. left. by destruct (proj1 (Forall_forall _ _) Hall r Hr).
Qed.

Lemma single_run_statuses db r :
  single_run db → r ∈ test_cases db →
  tc_status r = "pending" ∨ tc_status r = "running" ∨
  tc_status r = "completed" ∨ tc_status r = "failed".
Proof.
  intros [Ha _ _ Hd He] Hr.
  destruct (He r Hr) as [?|(e & Hin & Hid)]; [by left|]. right.
  destruct (Hd e Hin) as [Hst (r' & Hr' & Hid' & Hs)].
  assert (r' = r) as -> by (apply (same_key_same_row tc_id _ _ _ Ha Hr' Hr);
                            congruence).
  by rewrite Hs.
Qed.

(** In a single run the finished execution records are as many as the
    finished tests. *)
Lemma single_run_finished db :
  single_run db →
  length (filter (λ e, te_status e = "completed" ∨ te_status e = "failed")
            (test_executions db)) =
  length (filter (λ r, tc_status r = "completed" ∨ tc_status r = "failed")
            (test_cases db)).
Proof.
  intros [Ha _ Hc Hd He].
  rewrite <-(length_fmap te_test_id), <-(length_fmap tc_id).
  apply Permutation_length, NoDup_Permutation.
  - eapply sublist_NoDup; [exact Hc|]. apply fmap_sublist, sublist_filter.
  - eapply sublist_NoDup; [exact Ha|]. apply fmap_sublist, sublist_filter.
  - intros t. rewrite !list_elem_of_fmap. split.
    + intros (e & -> & [Hfin Hin]%list_elem_of_filter).
      destruct (Hd e Hin) as [_ (r & Hr & Hid & Hs)].
      exists r. split; [done|]. apply list_elem_of_filter.
      by rewrite Hs.
    + intros (r & -> & [Hterm Hr]%list_elem_of_filter).
      destruct (He r Hr) as [Hp|(e & Hin & Hid)].
      { rewrite Hp in Hterm. by destruct Hterm. }
      destruct (Hd e Hin) as [_ (r' & Hr' & Hid' & Hs')].
      assert (r' = r) as ->
        by (apply (same_key_same_row tc_id _ _ _ Ha Hr' Hr); congruence).
      exists e. split; [done|]. apply list_elem_of_filter.
      by rewrite <-Hs'.
Qed.

Lemma finished_or_remaining (rows : list TestCase) :
  (∀ r, r ∈ rows →
     tc_status r = "pending" ∨ tc_status r = "running" ∨
     tc_status r = "completed" ∨ tc_status r = "failed") →
  (length (filter (λ r, tc_status r = "completed" ∨ tc_status r = "failed")
             rows) +
   length (filter (λ r, tc_status r = "pending" ∨ tc_status r = "running")
             rows))%nat = length rows.
Proof.
  induction rows as [|r rows IH]; intros Hall; [done|].
  rewrite !filter_cons.
  specialize (IH (λ r' Hr', Hall r' (proj2 (elem_of_cons _ _ _) (or_intror Hr')))).
  destruct (Hall r (proj2 (elem_of_cons _ _ _) (or_introl eq_refl)))
    as [Hs|[Hs|[Hs|Hs]]]; rewrite Hs.
  - rewrite decide_False, decide_True by (by left || by intros [?|?]).
    simpl. lia.
  - rewrite decide_False, decide_True by (by right || by intros [?|?]).
    simpl. lia.
  - rewrite decide_True, decide_False by (by left || by intros [?|?]).
    simpl. lia.
  - rewrite decide_True, decide_False by (by right || by intros [?|?]).
    simpl. lia.
Qed.

Lemma single_run_conditions_agree db :
  single_run db →
  Merger.all_completed <$> Merger.get_test_status (Some db) =
  Some (Distributor.check_test_completion db).
Proof.
  intros Hdb. simpl. f_equal. unfold Distributor.check_test_completion.
  rewrite (single_run_finished db Hdb).
  pose proof (finished_or_remaining (test_cases db)
                (λ r Hr, single_run_statuses db r Hdb Hr)).
  apply bool_decide_ext. lia.
Qed.

(** X1: a store just filled by store_in_database, with no execution
    records, and then used by workers only -- any number of next_test calls
    and of reports carrying the status run_test computes, served one after
    the other -- keeps its two tables in step: no test has two execution
    records, the status of every execution record is the status of its
    test, and every test that is not pending has its record. *)
Theorem worker_run_keeps_tables_in_step
    db (tests : list Parser.ParsedTest) now (calls : list Call) :
  test_executions db = [] →
  Forall worker_call calls →
  ∃ db',
    after (Some (Parser.store_in_database db tests now).1) calls = Some db' ∧
    NoDup (te_test_id <$> test_executions db') ∧
    (∀ e, e ∈ test_executions db' →
       ∃ r, r ∈ test_cases db' ∧ tc_id r = te_test_id e ∧
            tc_status r = te_status e) ∧
    (∀ r, r ∈ test_cases db' → tc_status r ≠ "pending" →
       ∃ e, e ∈ test_executions db' ∧ te_test_id e = tc_id r).
Proof.
  intros Hnone Hcalls.
  destruct (after_single_run calls _ (seeded_single_run db tests now Hnone)
              Hcalls) as (db' & Hafter & [Ha Hb Hc Hd He]).
  exists db'. split_and!; [done..| |].
  - intros e Hin. by destruct (Hd e Hin).
  - intros r Hr Hnp. by destruct (He r Hr).
Qed.

Lemma worker_run_keeps_tables_in_step_witness :
  test_executions Scenario.empty = [] ∧
  Forall worker_call
    [NextTest (Some "pod-a") "e-1" 110;
     UpdateTest (posted "e-1" (Runner.status_of (Some 0)) None) 120;
     NextTest (Some "pod-b") "e-2" 130] ∧
  ∃ db',
    after (Some (Parser.store_in_database Scenario.empty
                   [Scenario.login; Scenario.logout] 100).1)
      [NextTest (Some "pod-a") "e-1" 110;
       UpdateTest (posted "e-1" (Runner.status_of (Some 0)) None) 120;
       NextTest (Some "pod-b") "e-2" 130] = Some db' ∧
    NoDup (te_test_id <$> test_executions db') ∧
    (∀ e, e ∈ test_executions db' →
       ∃ r, r ∈ test_cases db' ∧ tc_id r = te_test_id e ∧
            tc_status r = te_status e) ∧
    (∀ r, r ∈ test_cases db' → tc_status r ≠ "pending" →
       ∃ e, e ∈ test_executions db' ∧ te_test_id e = tc_id r).
Proof.
  assert (Forall worker_call
    [NextTest (Some "pod-a") "e-1" 110;
     UpdateTest (posted "e-1" (Runner.status_of (Some 0)) None) 120;
     NextTest (Some "pod-b") "e-2" 130]) as Hcalls.
  { repeat apply Forall_cons_2; [exact I| |exact I|apply Forall_nil_2].
    by exists "e-1", (Some 0), None. }
  split; [reflexivity|]. split; [exact Hcalls|].
  exact (worker_run_keeps_tables_in_step Scenario.empty _ 100 _ eq_refl Hcalls).
Defined.

(** X2: in such a run the completion test of the merger agrees with that
    of the distributor at every moment: get_test_status reports
    all_completed exactly when no test is pending or running. *)
Theorem monitor_condition_right_in_worker_run
    db (tests : list Parser.ParsedTest) now (calls : list Call) :
  test_executions db = [] →
  Forall worker_call calls →
  Merger.all_completed <$>
    Merger.get_test_status
      (after (Some (Parser.store_in_database db tests now).1) calls) =
  Distributor.check_test_completion <$>
    after (Some (Parser.store_in_database db tests now).1) calls.
Proof.
  intros Hnone Hcalls.
  destruct (after_single_run calls _ (seeded_single_run db tests now Hnone)
              Hcalls) as (db' & -> & Hdb').
  by rewrite single_run_conditions_agree.
Qed.

Lemma monitor_condition_right_in_worker_run_witness :
  test_executions Scenario.empty = [] ∧
  Forall worker_call
    [NextTest (Some "pod-a") "e-1" 110;
     UpdateTest (posted "e-1" (Runner.status_of (Some 1)) None) 120] ∧
  Merger.all_completed <$>
    Merger.get_test_status
      (after (Some (Parser.store_in_database Scenario.empty
                      [Scenario.login] 100).1)
         [NextTest (Some "pod-a") "e-1" 110;
          UpdateTest (posted "e-1" (Runner.status_of (Some 1)) None) 120]) =
  Some true ∧
  Merger.all_completed <$>
    Merger.get_test_status
      (after (Some (Parser.store_in_database Scenario.empty
                      [Scenario.login] 100).1)
         [NextTest (Some "pod-a") "e-1" 110;
          UpdateTest (posted "e-1" (Runner.status_of (Some 1)) None) 120]) =
  Distributor.check_test_completion <$>
    after (Some (Parser.store_in_database Scenario.empty
                   [Scenario.login] 100).1)
      [NextTest (Some "pod-a") "e-1" 110;
       UpdateTest (posted "e-1" (Runner.status_of (Some 1)) None) 120].
Proof.
  assert (Forall worker_call
    [NextTest (Some "pod-a") "e-1" 110;
     UpdateTest (posted "e-1" (Runner.status_of (Some 1)) None) 120])
    as Hcalls.
  { repeat apply Forall_cons_2; [exact I| |apply Forall_nil_2].
    by exists "e-1", (Some 1), None. }
  split; [reflexivity|]. split; [exact Hcalls|].
  split; [vm_compute; reflexivity|].
  exact (monitor_condition_right_in_worker_run Scenario.empty _ 100 _
           eq_refl Hcalls).
Defined.

End SingleRun.

(** ** The status summary *)

Section StatusSummary.
Import Server Summary.
Implicit Types (rows : list TestCase) (s : string).

Lemma foldl_insert_lookup (l : list (string * nat)) : ∀ (m : gmap string nat) k v,
  NoDup (l.*1) →
  foldl (λ d row, <[row.1 := row.2]> d) m l !! k = Some v ↔
  (k, v) ∈ l ∨ ((k ∉ l.*1) ∧ m !! k = Some v).
Proof.
  induction l as [|[k0 v0] l IH]; intros m k v; csimpl.
  - intros _. split; [intros ?; right; split; [apply not_elem_of_nil|done]|].
    by intros [?%elem_of_nil|[_ ?]].
  - intros [Hk0 Hl]%NoDup_cons. rewrite (IH _ _ _ Hl).
    rewrite elem_of_cons, not_elem_of_cons.
    destruct (decide (k0 = k)) as [->|Hne].
    + rewrite lookup_insert_eq. split.
      * intros [Hin|[_ [= ->]]]; [|by left; left].
        destruct Hk0. apply list_elem_of_fmap. by exists (k, v).
      * intros [[[= ->]|Hin]|[[? _] _]]; [by right|by left|done].
    + rewrite lookup_insert_ne by done. split.
      * intros [?|[? ?]]; [by left; right|by right].
      * intros [[[= ? ?]|?]|[[_ ?] ?]]; [done|by left|by right].
Qed.

Lemma count_cases_cons s r rows :
  count_cases s (r :: rows) =
  ((if decide (tc_status r = s) then 1 else 0) + count_cases s rows)%nat.
Proof. unfold count_cases. rewrite filter_cons. by case_decide. Qed.

Lemma count_cases_pos s rows :
  (0 < count_cases s rows)%nat ↔ s ∈ (tc_status <$> rows).
Proof.
  induction rows as [|r rows IH]; csimpl.
  - rewrite elem_of_nil. unfold count_cases. simpl. lia.
  - rewrite count_cases_cons, elem_of_cons, <-IH.
    case_decide; [split; [by left; subst|lia]|].
    split; [by right|intros [->|?]; [done|lia]].
Qed.

Lemma group_by_status_keys rows :
  (group_by_status rows).*1 = remove_dups (tc_status <$> rows).
Proof.
  unfold group_by_status. rewrite <-list_fmap_compose.
  apply (list_fmap_id (remove_dups (tc_status <$> rows))).
Qed.

Lemma status_counts_lookup rows s :
  status_counts rows !! s =
  if decide (count_cases s rows = 0%nat) then None
  else Some (count_cases s rows).
Proof.
  apply option_eq. intros n. unfold status_counts.
  rewrite foldl_insert_lookup
    by (rewrite group_by_status_keys; apply NoDup_remove_dups).
  rewrite lookup_empty, group_by_status_keys, elem_of_remove_dups.
  unfold group_by_status. rewrite list_elem_of_fmap.
  setoid_rewrite elem_of_remove_dups. rewrite <-count_cases_pos.
  split.
  - intros [(s' & [= -> ->] & Hin%count_cases_pos)|[_ ?]]; [|done].
    by rewrite decide_False by lia.
  - case_decide; [done|]. intros [= <-]. left. exists s. split; [done|].
    apply count_cases_pos. lia.
Qed.

Lemma sum_indicator s (ks : list string) :
  NoDup ks → s ∈ ks →
  sum_list_with (λ k, if decide (s = k) then 1 else 0)%nat ks = 1%nat.
Proof.
  induction 1 as [|k ks Hk Hks IH]; [by intros ?%elem_of_nil|]. simpl.
  intros [->|Hin]%elem_of_cons.
  - rewrite decide_True by done.
    assert (sum_list_with (λ k', if decide (k = k') then 1 else 0)%nat ks
            = 0%nat) as ->; [|done].
    clear IH Hks. induction ks as [|k' ks IH]; [done|]. simpl.
    apply not_elem_of_cons in Hk as [? ?].
    rewrite decide_False by done. by rewrite IH.
  - rewrite decide_False by (by intros ->). by rewrite IH.
Qed.

Lemma sum_count_cases rows : ∀ (ks : list string),
  NoDup ks → (∀ r, r ∈ rows → tc_status r ∈ ks) →
  sum_list_with (λ k, count_cases k rows) ks = length rows.
Proof.
  induction rows as [|r rows IH]; intros ks Hks Hall.
  - clear. induction ks as [|k ks IH]; [done|]. simpl. by rewrite IH.
  - assert (sum_list_with (λ k, count_cases k (r :: rows)) ks =
            (sum_list_with (λ k, if decide (tc_status r = k) then 1 else 0) ks
             + sum_list_with (λ k, count_cases k rows) ks)%nat) as ->.
    { clear. induction ks as [|k ks IH]; [done|]. simpl.
      rewrite IH, count_cases_cons. lia. }
    rewrite sum_indicator, IH; [done|done| |done|].
    + intros r' Hr'. apply Hall, elem_of_cons. by right.
    + apply Hall, elem_of_cons. by left.
Qed.

Lemma counted_status_counts rows : counted (status_counts rows) = length rows.
Proof.
  unfold counted, status_counts.
  assert (foldl (λ d row, <[row.1 := row.2]> d) (∅ : gmap string nat)
            (group_by_status rows) = list_to_map (group_by_status rows)) as ->.
  { apply map_eq. intros k. apply option_eq. intros v.
    rewrite foldl_insert_lookup, <-elem_of_list_to_map, lookup_empty
      by (rewrite group_by_status_keys; apply NoDup_remove_dups).
    split; [by intros [?|[_ ?]]|by left]. }
  rewrite <-(sum_list_with_foldr snd).
  rewrite map_to_list_to_map
    by (rewrite group_by_status_keys; apply NoDup_remove_dups).
  unfold group_by_status.
  assert (∀ (ks : list string),
            sum_list_with snd ((λ s, (s, count_cases s rows)) <$> ks) =
            sum_list_with (λ k, count_cases k rows) ks) as ->.
  { induction ks as [|k ks IH]; [done|]. csimpl. by rewrite IH. }
  apply sum_count_cases; [apply NoDup_remove_dups|].
  intros r Hr. apply elem_of_remove_dups. by apply list_elem_of_fmap_2.
Qed.

Lemma handle_keeps_tests (db db' : Database) (c : Run.Call) :
  (Run.handle (Some db) c).1 = Some db' →
  length (test_cases db') = length (test_cases db).
Proof.
  destruct c as [node_id uuid4 now|data now|]; simpl.
  - unfold next_test. simpl.
    destruct (select_next_pending (test_cases db)) as [m|];
      [|by intros [= <-]].
    destruct (claim db (tc_id m) _ uuid4 now) as [db1|] eqn:C;
      [|by intros [= <-]].
    intros [= <-]. unfold claim in C. simpl in C.
    destruct (insert_execution _ (test_executions db)); [|done].
    injection C as <-. unfold update_case_status. simpl.
    by rewrite length_fmap.
  - unfold update_test.
    destruct data as [[[eid|] [status|] result]|]; simpl;
      try (by intros [= <-]).
    destruct (select_execution eid (test_executions db));
      [|by intros [= <-]].
    intros [= <-]. unfold update_case_status. simpl. by rewrite length_fmap.
  - intros [= <-]. unfold update_all_status. simpl. by rewrite length_fmap.
Qed.

Lemma after_keeps_tests (calls : list Run.Call) : ∀ (db db' : Database),
  Run.after (Some db) calls = Some db' →
  length (test_cases db') = length (test_cases db).
Proof.
  induction calls as [|c calls IH]; intros db db'; [by intros [= <-]|].
  unfold Run.after. simpl.
  destruct (Run.handle (Some db) c).1 as [db1|] eqn:H1.
  - intros Hrest. rewrite (IH db1 db' Hrest).
    by apply (handle_keeps_tests db db1 c).
  - destruct c as [node_id uuid4 now|data now|]; simpl in H1.
    + unfold next_test in H1. simpl in H1.
      destruct (select_next_pending (test_cases db)) as [m|]; [|done].
      by destruct (claim db (tc_id m) _ uuid4 now).
    + unfold update_test in H1.
      destruct data as [[[eid|] [status|] result]|]; simpl in H1; try done.
      by destruct (select_execution eid (test_executions db)).
    + done.
Qed.

(** X3: the status summary of [/api/status] and [/api/dashboard] has a
    key for exactly the statuses that occur in test_cases as its GROUP BY
    statement reads the table, each with the number of tests of that
    status; and its values add up to total_tests as the later COUNT
    statement reads the table, whatever calls of next_test, update_test
    and reset the server has served between the two statements. *)
Theorem status_counts_partition_total
    (db db' : Database) (calls : list Run.Call) :
  Run.after (Some db) calls = Some db' →
  (∀ s n, status_counts (test_cases db) !! s = Some n ↔
          n = count_cases s (test_cases db) ∧
          s ∈ (tc_status <$> test_cases db)) ∧
  counted (status_counts (test_cases db)) = total_tests (test_cases db').
Proof.
  intros Hafter. split.
  - intros s n. rewrite status_counts_lookup, <-count_cases_pos.
    case_decide; [split; [done|lia]|].
    split; [intros [= <-]; split; [done|lia]|by intros [-> _]].
  - rewrite counted_status_counts. unfold total_tests.
    symmetry. by apply (after_keeps_tests calls).
Qed.

Lemma status_counts_partition_total_witness :
  ∃ db',
    Run.after (Some Scenario.seeded2)
      [Run.NextTest (Some "pod-a") "e-1" 110;
       Run.UpdateTest (posted "e-1" "completed" None) 120;
       Run.NextTest (Some "pod-b") "e-2" 130] = Some db' ∧
    status_counts (test_cases db') !! "running" = Some 1%nat ∧
    counted (status_counts (test_cases Scenario.seeded2)) =
      total_tests (test_cases db').
Proof.
  eexists. split; [vm_compute; reflexivity|].
  split; [vm_compute; reflexivity|].
  refine (proj2 (status_counts_partition_total Scenario.seeded2 _
                   [Run.NextTest (Some "pod-a") "e-1" 110;
                    Run.UpdateTest (posted "e-1" "completed" None) 120;
                    Run.NextTest (Some "pod-b") "e-2" 130] _)).
  vm_compute. reflexivity.
Defined.

(** X4: after a reset the summary has the single key pending, with
    total_tests as its value; it is empty when there is no test. *)
Theorem status_counts_after_reset (db : Database) :
  ∃ db', (reset_tests (Some db)).1 = Some db' ∧
    total_tests (test_cases db') = total_tests (test_cases db) ∧
    status_counts (test_cases db') =
      match test_cases db with
      | [] => ∅
      | _ => {[ "pending" := total_tests (test_cases db) ]}
      end.
Proof.
  eexists. split; [done|]. simpl. unfold total_tests, update_all_status.
  split; [by rewrite length_fmap|].
  assert (∀ s, count_cases s (with_status "pending" <$> test_cases db) =
               if decide (s = "pending") then length (test_cases db)
               else 0%nat) as Hcount.
  { intros s. induction (test_cases db) as [|r rows IH]; csimpl;
      [by case_decide|].
    rewrite count_cases_cons, IH. simpl.
    destruct (decide (s = "pending")) as [->|Hne].
    - by rewrite decide_True.
    - by rewrite decide_False. }
  apply map_eq. intros s. rewrite status_counts_lookup, Hcount.
  destruct (test_cases db) as [|r rows] eqn:E.
  - rewrite lookup_empty. by repeat case_decide.
  - destruct (decide (s = "pending")) as [->|Hne].
    + by rewrite lookup_singleton_eq.
    + by rewrite lookup_singleton_ne.
Qed.

End StatusSummary.

(** ** Progress of a run *)

Section Progress.
Import Server.
Implicit Types (db : Database) (rows : list TestCase) (s : string).

Lemma update_case_status_absent s i rows :
  i ∉ (tc_id <$> rows) → update_case_status s i rows = rows.
Proof.
  induction rows as [|r rows IH]; csimpl; [done|].
  intros [Hr Hrows]%not_elem_of_cons. unfold update_case_status in *. csimpl.
  rewrite bool_decide_false by done. by rewrite IH.
Qed.

Lemma count_after_claim rows m s :
  NoDup (tc_id <$> rows) → m ∈ rows → tc_status m = "pending" →
  (count_cases s (update_case_status "running" (tc_id m) rows) +
   (if decide (s = "pending") then 1 else 0))%nat =
  (count_cases s rows + (if decide (s = "running") then 1 else 0))%nat.
Proof.
  induction rows as [|r rows IH]; csimpl; [by intros _ ?%elem_of_nil|].
  intros [Hr Hrows]%NoDup_cons [->|Hm]%elem_of_cons Hp.
  - unfold update_case_status. csimpl. rewrite bool_decide_true by done.
    fold (update_case_status "running" (tc_id r) rows).
    rewrite update_case_status_absent by done.
    rewrite !count_cases_cons. simpl. rewrite Hp.
    repeat case_decide; subst; try done; lia.
  - assert (tc_id r ≠ tc_id m) as Hne.
    { intros Heq. apply Hr. rewrite Heq. by apply list_elem_of_fmap_2. }
    unfold update_case_status. csimpl. rewrite bool_decide_false by done.
    fold (update_case_status "running" (tc_id m) rows).
    rewrite !count_cases_cons. specialize (IH Hrows Hm Hp). lia.
Qed.

(** X5: every next_test answered 200 moves exactly one test from pending
    to running: the number of pending tests goes down by one, the number
    of running tests and of running execution records go up by one, the
    number of tests of any other status and the total stay the same
    ([id] being the primary key of test_cases). *)
Theorem next_test_moves_one_test db node_id (uuid4 : string) now db' body :
  NoDup (tc_id <$> test_cases db) →
  next_test (Some db) node_id uuid4 now = (Some db', (body, 200)) →
  (count_cases "pending" (test_cases db') + 1)%nat =
    count_cases "pending" (test_cases db) ∧
  count_cases "running" (test_cases db') =
    (count_cases "running" (test_cases db) + 1)%nat ∧
  (∀ s, s ≠ "pending" → s ≠ "running" →
     count_cases s (test_cases db') = count_cases s (test_cases db)) ∧
  count_executions "running" (test_executions db') =
    (count_executions "running" (test_executions db) + 1)%nat ∧
  length (test_cases db') = length (test_cases db).
Proof.
  intros Hkey. unfold next_test. simpl.
  destruct (select_next_pending (test_cases db)) as [m|] eqn:E; [|done].
  destruct (select_next_pending_Some _ _ E) as (Hm & Hpm & _).
  destruct (claim db (tc_id m) _ uuid4 now) as [db1|] eqn:C; [|done].
  intros [= <- _]. apply claim_inv in C as (-> & -> & _).
  pose proof (λ s, count_after_claim _ m s Hkey Hm Hpm) as Hcount.
  split_and!.
  - specialize (Hcount "pending"). simpl in Hcount. lia.
  - specialize (Hcount "running"). simpl in Hcount. lia.
  - intros s Hs1 Hs2. specialize (Hcount s).
    rewrite !decide_False in Hcount by done. lia.
  - unfold count_executions. rewrite filter_app, length_app. done.
  - unfold update_case_status. by rewrite length_fmap.
Qed.

Lemma next_test_moves_one_test_witness :
  NoDup (tc_id <$> test_cases Scenario.seeded2) ∧
  ∃ db' body,
    next_test (Some Scenario.seeded2) (Some "pod-a") "e-1" 110 =
      (Some db', (body, 200)) ∧
    (count_cases "pending" (test_cases db') + 1)%nat =
      count_cases "pending" (test_cases Scenario.seeded2) ∧
    count_cases "running" (test_cases db') =
      (count_cases "running" (test_cases Scenario.seeded2) + 1)%nat ∧
    (∀ s, s ≠ "pending" → s ≠ "running" →
       count_cases s (test_cases db') =
       count_cases s (test_cases Scenario.seeded2)) ∧
    count_executions "running" (test_executions db') =
      (count_executions "running" (test_executions Scenario.seeded2) + 1)%nat ∧
    length (test_cases db') = length (test_cases Scenario.seeded2).
Proof.
  split; [by_compute|]. eexists. eexists.
  split; [vm_compute; reflexivity|].
  eapply (next_test_moves_one_test Scenario.seeded2 (Some "pod-a") "e-1" 110);
    [by_compute|vm_compute; reflexivity].
Defined.

End Progress.

(** ** What interleaved requests keep *)

Section Interleaved.
Import Server Concurrent.
Implicit Types (s : State) (i : nat) (t : Z).

Lemma advance_records s i t :
  NoDup (te_execution_id <$> test_executions (db s)) →
  NoDup (te_execution_id <$> test_executions (db (advance i s))) ∧
  test_executions (db s) `prefix_of` test_executions (db (advance i s)) ∧
  (length (active t (test_executions (db (advance i s)))) +
   length (filter (λ x, x = t) (assigned_tests s)))%nat =
  (length (active t (test_executions (db s))) +
   length (filter (λ x, x = t) (assigned_tests (advance i s))))%nat.
Proof.
  intros Hkey. unfold advance.
  destruct (requests s !! i) as [[n u now|n u now m|r]|] eqn:Hi; [| |done..].
  - destruct (select_next_pending (test_cases (db s))); simpl;
      (split_and!; [done..|]); unfold assigned_tests; simpl;
      by rewrite (assigned_insert_same _ _ _ _ Hi).
  - destruct (claim (db s) (tc_id m) _ u now) as [db'|] eqn:C; simpl.
    + pose proof (claim_fresh _ _ _ _ _ _ C) as Hfresh.
      apply claim_inv in C as (_ & He & _). rewrite He.
      destruct (assigned_insert_new (requests s) i _
                  (Responded (assignment u m)) (tc_id m) Hi eq_refl eq_refl)
        as (l1 & l2 & Hold & Hnew).
      unfold assigned_tests. simpl. rewrite Hold, Hnew.
      split_and!.
      * rewrite fmap_app. apply NoDup_app.
        split_and!; [done| |apply NoDup_singleton].
        by intros x Hx ->%list_elem_of_singleton.
      * by apply prefix_app_r.
      * rewrite active_snoc, !filter_app, filter_cons, !length_app. simpl.
        destruct (decide (tc_id m = t)) as [->|Hne].
        -- rewrite !decide_True by done. simpl. lia.
        -- rewrite decide_False by (by intros [? _]). simpl. lia.
    + split_and!; [done..|]. unfold assigned_tests. simpl.
      by rewrite (assigned_insert_same _ _ _ _ Hi).
Qed.

(** X6: under any interleaving of the steps of next_test requests the
    execution records stay keyed by their execution_id and none is lost,
    and a test has exactly as many more running records as requests were
    given it -- two, when the race hands a test out twice. *)
Theorem interleaved_requests_keep_records s (schedule : list nat) t :
  Forall fresh (requests s) →
  NoDup (te_execution_id <$> test_executions (db s)) →
  NoDup (te_execution_id <$> test_executions (db (run advance schedule s))) ∧
  test_executions (db s) `prefix_of`
    test_executions (db (run advance schedule s)) ∧
  length (active t (test_executions (db (run advance schedule s)))) =
  (length (active t (test_executions (db s))) +
   length (filter (λ x, x = t) (assigned_tests (run advance schedule s))))%nat.
Proof.
  intros [Hnone _]%fresh_unassigned Hkey.
  assert (∀ s0,
    NoDup (te_execution_id <$> test_executions (db s0)) →
    NoDup (te_execution_id <$>
             test_executions (db (run advance schedule s0))) ∧
    test_executions (db s0) `prefix_of`
      test_executions (db (run advance schedule s0)) ∧
    (length (active t (test_executions (db (run advance schedule s0)))) +
     length (filter (λ x, x = t) (assigned_tests s0)))%nat =
    (length (active t (test_executions (db s0))) +
     length (filter (λ x, x = t)
               (assigned_tests (run advance schedule s0))))%nat) as Hrun.
  { induction schedule as [|i rest IH]; intros s0 Hs0; [done|]. simpl.
    destruct (advance_records s0 i t Hs0) as (Hk1 & Hp1 & Hc1).
    destruct (IH _ Hk1) as (Hk2 & Hp2 & Hc2).
    split_and!; [done|by etrans|].
    unfold run in *. lia. }
  destruct (Hrun s Hkey) as (Hk & Hp & Hc). split_and!; [done..|].
  unfold assigned_tests in Hc at 1. rewrite Hnone in Hc. simpl in Hc. lia.
Qed.

Lemma interleaved_requests_keep_records_witness :
  Forall fresh (requests (Scenario.two_requests Scenario.seeded)) ∧
  NoDup (te_execution_id <$>
           test_executions (db (Scenario.two_requests Scenario.seeded))) ∧
  length (filter (λ x, x = 1)
            (assigned_tests
               (run advance [0; 1; 0; 1]%nat
                  (Scenario.two_requests Scenario.seeded)))) = 2%nat ∧
  NoDup (te_execution_id <$>
           test_executions
             (db (run advance [0; 1; 0; 1]%nat
                    (Scenario.two_requests Scenario.seeded)))) ∧
  test_executions (db (Scenario.two_requests Scenario.seeded)) `prefix_of`
    test_executions
      (db (run advance [0; 1; 0; 1]%nat
             (Scenario.two_requests Scenario.seeded))) ∧
  length (active 1
            (test_executions
               (db (run advance [0; 1; 0; 1]%nat
                      (Scenario.two_requests Scenario.seeded))))) =
  (length (active 1%Z
             (test_executions (db (Scenario.two_requests Scenario.seeded)))) +
   length (filter (λ x, x = 1%Z)
             (assigned_tests
                (run advance [0; 1; 0; 1]%nat
                   (Scenario.two_requests Scenario.seeded)))))%nat.
Proof.
  split; [by_compute|]. split; [by_compute|].
  split; [vm_compute; reflexivity|].
  apply interleaved_requests_keep_records; by_compute.
Defined.

End Interleaved.

(** ** When the monitor merges *)

Section MonitorRun.
Import Merger.

(** With a negative polling interval the first read that shows the
    status and is not complete ends the monitor: [time.sleep] raises. *)
Lemma monitor_negative_interval_raises interval merged file later st :
  interval < 0 → get_test_status file = Some st → all_completed st = false →
  monitor_and_merge interval merged (file :: later) =
  ([], Raises "ValueError").
Proof.
  intros Hneg Hst Hc. simpl. rewrite Hst, Hc. by rewrite bool_decide_true.
Qed.



End MonitorRun.

(** ** Bounds of the worker *)

Section WorkerBounds.
Import Worker.

Lemma attempts_bounds api : ∀ todo sent attempt delay bound,
  let '(fetch, slept, n) := attempts api sent attempt todo delay bound in
  (sent ≤ n ≤ sent + todo)%nat ∧
  (todo ≠ 0%nat → (sent < n)%nat) ∧
  (∃ k, (k ≤ todo)%nat ∧
        slept = (λ i, delay * 2 ^ Z.of_nat i) <$> seq 0 k) ∧
  (∀ test, fetch = Got test →
     ∃ text, api (pred n) = Response 200 text (Some test)).
Proof.
  induction todo as [|todo IH]; intros sent attempt delay bound.
  { simpl. split; [lia|]. split; [done|]. split; [by exists 0%nat|done]. }
  assert (∀ b,
    let '(fetch, slept, n) :=
      (let '(fetch, slept, n) :=
         attempts api (S sent) (S attempt) todo (delay * 2) b in
       (fetch, delay :: slept, n)) in
    (sent ≤ n ≤ sent + S todo)%nat ∧
    (S todo ≠ 0%nat → (sent < n)%nat) ∧
    (∃ k, (k ≤ S todo)%nat ∧
          slept = (λ i, delay * 2 ^ Z.of_nat i) <$> seq 0 k) ∧
    (∀ test, fetch = Got test →
       ∃ text, api (pred n) = Response 200 text (Some test))) as Hretry.
  { intros b. specialize (IH (S sent) (S attempt) (delay * 2) b).
    destruct (attempts api (S sent) (S attempt) todo (delay * 2) b)
      as [[fetch slept] n].
    destruct IH as (Hn & _ & (k & Hk & ->) & Hgot).
    split; [lia|]. split; [lia|]. split; [|done].
    exists (S k). split; [lia|]. simpl. f_equal; [lia|].
    rewrite <-fmap_S_seq, <-list_fmap_compose.
    apply list_fmap_ext. intros _ i _. simpl.
    rewrite Nat2Z.inj_succ, Z.pow_succ_r by lia. lia. }
  assert (∀ fetch,
    (∀ test, fetch = Got test →
       ∃ text, api sent = Response 200 text (Some test)) →
    (sent ≤ S sent ≤ sent + S todo)%nat ∧
    (S todo ≠ 0%nat → (sent < S sent)%nat) ∧
    (∃ k, (k ≤ S todo)%nat ∧
          [] = (λ i, delay * 2 ^ Z.of_nat i) <$> seq 0 k) ∧
    (∀ test, fetch = Got test →
       ∃ text, api (pred (S sent)) = Response 200 text (Some test))) as Hstop.
  { intros fetch Hgot. split; [lia|]. split; [lia|].
    split; [exists 0%nat; split; [lia|done]|done]. }
  simpl. destruct (api sent) as [code text json|] eqn:Hr.
  - case_bool_decide as H200.
    { destruct json as [test_data|].
      - apply Hstop. intros test [= <-]. subst code. by exists text.
      - case_bool_decide; [apply Hretry|by apply Hstop]. }
    case_bool_decide as H404; [by apply Hstop|].
    destruct (bool_decide (code = 500) && contains "Database error" text);
      [apply Hretry|].
    case_bool_decide; [|by apply Hstop].
    destruct bound; [apply Hretry|by apply Hstop].
  - case_bool_decide; [apply Hretry|by apply Hstop].
Qed.

(** X8: whatever the server answers, one call of get_next_test sends at
    least one and at most three requests and sleeps 1, then 2, then 4
    seconds at most (a prefix of these delays); a test it returns is the
    JSON of a 200 reply to the last request it sent. *)
Theorem get_next_test_bounded (api : nat → Reply) (sent : nat) :
  let '(fetch, slept, n) := get_next_test api sent in
  (sent < n ≤ sent + 3)%nat ∧
  slept `prefix_of` [1; 2; 4] ∧
  ∀ test, fetch = Got test →
    ∃ text, api (pred n) = Response 200 text (Some test).
Proof.
  unfold get_next_test, max_retries.
  pose proof (attempts_bounds api 3 sent 0 1 false) as H.
  destruct (attempts api sent 0 3 1 false) as [[fetch slept] n].
  destruct H as (Hn & Hpos & (k & Hk & ->) & Hgot).
  split; [lia|]. split; [|done].
  destruct k as [|[|[|[|k]]]]; [| | | |lia]; simpl.
  - apply prefix_nil.
  - by exists [2; 4].
  - by exists [4].
  - done.
Qed.

Lemma get_next_test_ok api sent text test :
  api sent = Response 200 text (Some test) →
  get_next_test api sent = (Got test, [], S sent).
Proof. intros Hr. unfold get_next_test. simpl. by rewrite Hr. Qed.

Lemma get_next_test_none api sent text json :
  api sent = Response 404 text json →
  get_next_test api sent = (NoTest, [], S sent).
Proof. intros Hr. unfold get_next_test. simpl. by rewrite Hr. Qed.

(** X9: a worker whose first [n] requests are answered 200 with the tests
    [tests 0], ..., [tests (n - 1)], each of which run_test runs without
    raising before its try, reports exactly those tests, in that order,
    each with the status computed from its return code, one request
    each.  If the next request is answered 404 it ends normally, having
    sent [n + 1] requests and run [n] tests; if the next request is
    answered with a further test for which a statement before the try of
    run_test raises, main ends in its exception handler and that test is
    not reported. *)
Theorem loop_runs_each_test_given (n : nat) :
  ∀ api run_test (tests : nat → TestData) (codes : nat → option Z)
    sent tests_run fuel,
  (∀ k, (k < n)%nat →
     ∃ text, api (sent + k)%nat = Response 200 text (Some (tests k))) →
  (∀ k, (k < n)%nat →
     run_test (tests_run + k)%nat (tests k) = Ran (codes k)) →
  (n < fuel)%nat →
  ((∃ text json, api (sent + n)%nat = Response 404 text json) →
   work api run_test sent tests_run fuel =
     (Completed (tests_run + n),
      (λ k, (tests k, Runner.status_of (codes k))) <$> seq 0 n,
      (sent + n + 1)%nat)) ∧
  (∀ text test exception,
     api (sent + n)%nat = Response 200 text (Some test) →
     run_test (tests_run + n)%nat test = RaisedBefore exception →
     work api run_test sent tests_run fuel =
       (ExceptionInMain exception,
        (λ k, (tests k, Runner.status_of (codes k))) <$> seq 0 n,
        (sent + n + 1)%nat)).
Proof.
  induction n as [|n IH];
    intros api run_test tests codes sent tests_run fuel Hok Hran Hfuel;
    (destruct fuel as [|fuel]; [lia|]); cbn [work].
  - rewrite !Nat.add_0_r. split.
    + intros (text & json & Hr). rewrite (get_next_test_none _ _ _ _ Hr).
      do 2 f_equal. lia.
    + intros text test exception Hr Hraise.
      rewrite (get_next_test_ok _ _ _ _ Hr), Hraise. do 2 f_equal. lia.
  - destruct (Hok 0%nat ltac:(lia)) as (text0 & Hr0).
    pose proof (Hran 0%nat ltac:(lia)) as Hran0.
    rewrite Nat.add_0_r in Hr0, Hran0.
    rewrite (get_next_test_ok _ _ _ _ Hr0), Hran0.
    destruct (IH api run_test (λ k, tests (S k)) (λ k, codes (S k))
                (S sent) (S tests_run) fuel) as [IHend IHraise].
    { intros k Hk. destruct (Hok (S k) ltac:(lia)) as (tx & Hk').
      exists tx. by replace (S sent + k)%nat with (sent + S k)%nat by lia. }
    { intros k Hk.
      replace (S tests_run + k)%nat with (tests_run + S k)%nat by lia.
      apply Hran. lia. }
    { lia. }
    replace (sent + S n)%nat with (S sent + n)%nat by lia.
    replace (tests_run + S n)%nat with (S tests_run + n)%nat by lia.
    cbn [seq fmap list_fmap]. rewrite <-fmap_S_seq, <-list_fmap_compose.
    split.
    + intros Hend. by rewrite (IHend Hend).
    + intros text test exception Hr Hraise.
      by rewrite (IHraise text test exception Hr Hraise).
Qed.

Lemma loop_runs_each_test_given_witness :
  work (λ k, if bool_decide (k < 2)%nat
             then Response 200 "test"
                    (Some (mkTestData "e-1" 1 "Valid Login" "auth"
                             "tests/auth/login.robot"))
             else Response 404 "No tests available" None)
    (λ k _, Ran (Some (Z.of_nat k))) 0 0 3
  = (Completed 2,
     [(mkTestData "e-1" 1 "Valid Login" "auth" "tests/auth/login.robot",
       "completed");
      (mkTestData "e-1" 1 "Valid Login" "auth" "tests/auth/login.robot",
       "failed")],
     3%nat).
Proof.
  apply (proj1 (loop_runs_each_test_given 2
                  (λ k, if bool_decide (k < 2)%nat
                        then Response 200 "test"
                               (Some (mkTestData "e-1" 1 "Valid Login" "auth"
                                        "tests/auth/login.robot"))
                        else Response 404 "No tests available" None)
                  (λ k _, Ran (Some (Z.of_nat k)))
                  (λ _, mkTestData "e-1" 1 "Valid Login" "auth"
                          "tests/auth/login.robot")
                  (λ k, Some (Z.of_nat k)) 0 0 3
                  ltac:(intros k Hk; cbn beta iota; simpl Nat.add;
                        rewrite bool_decide_true by lia; eauto)
                  ltac:(intros k Hk; reflexivity)
                  ltac:(lia))).
  simpl. eauto.
Defined.

End WorkerBounds.

(** ** The name of the shared output file *)

Section SafeName.
Import Runner.
Variables isalnum isspace : N → bool.

Lemma rstrip_prefix (s : list N) : rstrip isspace s `prefix_of` s.
Proof.
  induction s as [|c s IH]; simpl; [done|].
  destruct (rstrip isspace s) as [|c' kept] eqn:E.
  - destruct (isspace c); [apply prefix_nil|]. apply prefix_cons, prefix_nil.
  - by apply prefix_cons.
Qed.

Lemma rstrip_last (s : list N) c :
  last (rstrip isspace s) = Some c → isspace c = false.
Proof.
  induction s as [|c0 s IH]; simpl; [done|].
  destruct (rstrip isspace s) as [|c' kept] eqn:E.
  - destruct (isspace c0) eqn:Hc; [done|]. by intros [= <-].
  - rewrite last_cons.
    destruct (last (c' :: kept)) eqn:L; [apply IH|by apply last_None in L].
Qed.

Lemma rstrip_trailing (s : list N) c :
  isspace c = true → rstrip isspace (s ++ [c]) = rstrip isspace s.
Proof.
  intros Hc. induction s as [|c0 s IH]; simpl; [by rewrite Hc|].
  by rewrite IH.
Qed.

(** X10: the name [run_test] builds for the shared output file of a test
    holds no space and nothing but alphanumeric characters, hyphens and
    underscores, and is no longer than the test name; a space at the end
    of the test name is dropped, not turned into an underscore, so it
    does not change the name built. *)
Theorem safe_test_name_characters (test_name : list N) :
  Forall (λ c, c ≠ 32%N ∧ (isalnum c = true ∨ c = 45%N ∨ c = 95%N))
    (safe_test_name isalnum isspace test_name) ∧
  (length (safe_test_name isalnum isspace test_name) ≤ length test_name)%nat ∧
  (isspace 32%N = true →
   safe_test_name isalnum isspace (test_name ++ [32%N]) =
   safe_test_name isalnum isspace test_name).
Proof.
  unfold safe_test_name.
  pose proof (rstrip_prefix
    (filter (λ c, isalnum c = true ∨ c ∈ [32%N; 45%N; 95%N]) test_name))
    as Hpre.
  split_and!.
  - apply Forall_fmap, Forall_forall. intros c Hc. simpl.
    assert (c ∈ filter (λ c, isalnum c = true ∨ c ∈ [32%N; 45%N; 95%N])
                  test_name) as [Hkeep _]%list_elem_of_filter.
    { destruct Hpre as [rest ->]. apply elem_of_app. by left. }
    case_bool_decide as H32; [split; [done|by right; right]|].
    split; [done|].
    destruct Hkeep as [?|Hin]; [by left|]. right.
    repeat (apply elem_of_cons in Hin as [->|Hin]); [done|by left|by right|].
    by apply elem_of_nil in Hin.
  - rewrite length_fmap. etrans; [by apply prefix_length|].
    apply length_filter.
  - intros Hspace. rewrite filter_app, filter_cons_True, filter_nil.
    + by rewrite rstrip_trailing.
    + right. apply elem_of_cons. by left.
Qed.

End SafeName.

Lemma safe_test_name_characters_witness :
  Examples.isspace 32%N = true ∧
  Runner.safe_test_name Examples.isalnum Examples.isspace
    [86; 97; 108; 105; 100; 32; 76; 111; 103; 105; 110; 33; 32]%N =
  [86; 97; 108; 105; 100; 95; 76; 111; 103; 105; 110]%N ∧
  Runner.safe_test_name Examples.isalnum Examples.isspace
    ([86; 97; 108; 105; 100; 32; 76; 111; 103; 105; 110; 33]%N ++ [32%N]) =
  Runner.safe_test_name Examples.isalnum Examples.isspace
    [86; 97; 108; 105; 100; 32; 76; 111; 103; 105; 110; 33]%N.
Proof.
  split; [reflexivity|]. split; [vm_compute; reflexivity|].
  exact (proj2 (proj2 (safe_test_name_characters Examples.isalnum Examples.isspace
                         [86; 97; 108; 105; 100; 32; 76; 111; 103; 105;
                          110; 33]%N)) eq_refl).
Defined.


(** ** Answers other than 200 *)

Section ErrorAnswers.
Import Server Run.

(** X11: a handler that answers anything but 200 -- 400 for a body
    without execution_id or status, 404 for no pending test or an unknown
    execution id, 500 for a missing database or a failed INSERT -- has
    left the store exactly as it was. *)
Theorem error_answer_leaves_store (file : option Database) (c : Call) :
  (handle file c).2.2 ≠ 200 → (handle file c).1 = file.
Proof.
  destruct c as [node_id uuid4 now|data now|]; simpl.
  - unfold next_test. destruct file as [db|]; simpl; [|done].
    destruct (select_next_pending (test_cases db)) as [m|]; [|done].
    by destruct (claim db (tc_id m) _ uuid4 now).
  - unfold update_test.
    destruct data as [[[eid|] [status|] result]|]; try done.
    destruct file as [db|]; simpl; [|done].
    by destruct (select_execution eid (test_executions db)).
  - unfold reset_tests. by destruct file.
Qed.

Lemma error_answer_leaves_store_witness :
  (handle (next_test (Some Scenario.seeded2) (Some "pod-a") "e-1" 110).1
     (NextTest (Some "pod-b") "e-1" 111)).2 = integrity_error ∧
  (handle (next_test (Some Scenario.seeded2) (Some "pod-a") "e-1" 110).1
     (NextTest (Some "pod-b") "e-1" 111)).1 =
  (next_test (Some Scenario.seeded2) (Some "pod-a") "e-1" 110).1.
Proof.
  split; [vm_compute; reflexivity|].
  apply error_answer_leaves_store. by_compute.
Defined.

End ErrorAnswers.

(** ** Ids across catalogs *)

Section Reseed.
Import Server Parser.
Implicit Types (db : Database) (tests : list ParsedTest) (now : Z).

Lemma foldl_insert_seq now tests : ∀ db0,
  test_cases_seq (foldl (insert_test_case now) db0 tests) =
  match tests with
  | [] => test_cases_seq db0
  | _ => Z.max (test_cases_seq db0) (max_id (test_cases db0))
         + Z.of_nat (length tests)
  end.
Proof.
  induction tests as [|t ts IH]; intros db0; [done|].
  cbn [foldl]. rewrite IH. destruct ts as [|t' ts]; simpl.
  - lia.
  - rewrite max_id_snoc. simpl.
    pose proof (max_id_nonneg (test_cases db0)). lia.
Qed.

(** X12: store_in_database never gives a new test an id that a test of
    the catalog it replaces had: when the AUTOINCREMENT counter is at or
    above every id in the table, as SQLite keeps it, every new id is
    above every old one, and the counter is again at or above every id
    and has not gone down. *)
Theorem store_in_database_never_reuses_ids db tests now :
  (∀ r, r ∈ test_cases db → tc_id r ≤ test_cases_seq db) →
  (∀ r r', r ∈ test_cases db →
     r' ∈ test_cases (store_in_database db tests now).1 →
     tc_id r < tc_id r') ∧
  (∀ r', r' ∈ test_cases (store_in_database db tests now).1 →
     tc_id r' ≤ test_cases_seq (store_in_database db tests now).1) ∧
  test_cases_seq db ≤ test_cases_seq (store_in_database db tests now).1.
Proof.
  intros Hseq. unfold store_in_database. simpl.
  destruct (foldl_insert_test_case now tests
              {| test_cases := []; test_executions := test_executions db;
                 test_cases_seq := test_cases_seq db |})
    as (_ & added & Hc & _ & _ & _ & _ & Hid).
  rewrite foldl_insert_seq. simpl in *. rewrite Hc.
  assert (∀ r', r' ∈ added →
            Z.max (test_cases_seq db) 0 + 1 ≤ tc_id r' <
            Z.max (test_cases_seq db) 0 + 1 + Z.of_nat (length tests))
    as Hnew.
  { intros r' Hr'. apply elem_of_seqZ. rewrite <-Hid.
    by apply list_elem_of_fmap_2. }
  split_and!.
  - intros r r' Hr Hr'. specialize (Hseq r Hr). specialize (Hnew r' Hr'). lia.
  - intros r' Hr'. specialize (Hnew r' Hr').
    destruct tests; simpl in *; lia.
  - destruct tests; simpl; lia.
Qed.

Lemma store_in_database_never_reuses_ids_witness :
  (∀ r, r ∈ test_cases Scenario.running_db →
        tc_id r ≤ test_cases_seq Scenario.running_db) ∧
  tc_id <$> test_cases Scenario.running_db = [1] ∧
  tc_id <$> test_cases
              (store_in_database Scenario.running_db
                 [Scenario.login; Scenario.logout] 200).1 = [2; 3] ∧
  (∀ r r', r ∈ test_cases Scenario.running_db →
     r' ∈ test_cases (store_in_database Scenario.running_db
                        [Scenario.login; Scenario.logout] 200).1 →
     tc_id r < tc_id r').
Proof.
  assert (∀ r, r ∈ test_cases Scenario.running_db →
               tc_id r ≤ test_cases_seq Scenario.running_db) as Hseq.
  { intros r Hr. apply list_elem_of_singleton in Hr. by subst r. }
  split; [exact Hseq|]. split; [reflexivity|]. split; [reflexivity|].
  exact (proj1 (store_in_database_never_reuses_ids Scenario.running_db
                  [Scenario.login; Scenario.logout] 200 Hseq)).
Defined.

(** X13: a report for an execution of the catalog that was replaced is
    still answered 200 and written into its execution record, and it
    changes no test of the new catalog (the test ids of the execution
    records being ids the table once held, at or below the counter). *)
Theorem report_after_reseed_changes_no_test
    db tests now eid status result now' :
  (∀ e, e ∈ test_executions db → te_test_id e ≤ test_cases_seq db) →
  eid ∈ (te_execution_id <$> test_executions db) →
  ∃ db'',
    update_test (Some (store_in_database db tests now).1)
      (posted eid status result) now' =
      (Some db'', (Message "Test status updated", 200)) ∧
    test_cases db'' = test_cases (store_in_database db tests now).1 ∧
    test_executions db'' =
      update_execution status now' result eid (test_executions db).
Proof.
  intros Hfk Hin. unfold store_in_database. simpl.
  destruct (foldl_insert_test_case now tests
              {| test_cases := []; test_executions := test_executions db;
                 test_cases_seq := test_cases_seq db |})
    as (He & added & Hc & _ & _ & _ & _ & Hid).
  simpl in *.
  destruct (select_execution_is_Some _ _ Hin) as [e Hsel].
  destruct (select_execution_Some _ _ _ Hsel) as [Hmem _].
  unfold update_test, posted. simpl. rewrite He, Hsel, Hc.
  eexists. split; [done|]. simpl. split; [|done].
  apply update_case_status_absent. rewrite Hid. intros Hnew%elem_of_seqZ.
  specialize (Hfk e Hmem). lia.
Qed.

Lemma report_after_reseed_changes_no_test_witness :
  (∀ e, e ∈ test_executions Scenario.running_db →
        te_test_id e ≤ test_cases_seq Scenario.running_db) ∧
  "e-1" ∈ (te_execution_id <$> test_executions Scenario.running_db) ∧
  ∃ db'',
    update_test (Some (store_in_database Scenario.running_db
                         [Scenario.logout] 200).1)
      (posted "e-1" "completed" None) 210 =
      (Some db'', (Message "Test status updated", 200)) ∧
    test_cases db'' =
      test_cases (store_in_database Scenario.running_db
                    [Scenario.logout] 200).1 ∧
    test_executions db'' =
      update_execution "completed" 210 None "e-1"
        (test_executions Scenario.running_db).
Proof.
  assert (∀ e, e ∈ test_executions Scenario.running_db →
               te_test_id e ≤ test_cases_seq Scenario.running_db) as Hfk.
  { intros e He. apply list_elem_of_singleton in He. by subst e. }
  assert ("e-1" ∈ (te_execution_id <$> test_executions Scenario.running_db))
    as Hin by by_compute.
  split; [exact Hfk|]. split; [exact Hin|].
  exact (report_after_reseed_changes_no_test Scenario.running_db
           [Scenario.logout] 200 "e-1" "completed" None 210 Hfk Hin).
Defined.

End Reseed.

(** ** The distributor's copies *)

Section DistributorCopies.
Import Server DistributorStore.

(** X14: the distributor's get_next_test and update_test_status do to
    the store what the handlers next_test and update_test do, and return
    what those answer: the same test with a 200, None with the 404, the
    exception of the INSERT with the 500; True with a 200 and False with
    the 404. *)
Theorem distributor_copies_agree_with_handlers
    (db : Database) (node_id uuid4 eid status : string)
    (result : option string) (now : Z) :
  next_test (Some db) (Some node_id) uuid4 now =
    match get_next_test db node_id uuid4 now with
    | Some (db', Some test) =>
        (Some db',
         (Assignment (execution_id test) (test_id test) (test_name test)
            (suite_name test) (file_path test), 200))
    | Some (db', None) => (Some db', (Message "No tests available", 404))
    | None => (Some db, (Unhandled "IntegrityError", 500))
    end ∧
  update_test (Some db) (posted eid status result) now =
    (Some (update_test_status db eid status result now).1,
     if (update_test_status db eid status result now).2
     then (Message "Test status updated", 200)
     else (Error "Execution ID not found", 404)).
Proof.
  split.
  - unfold next_test, get_next_test, claim. simpl.
    destruct (select_next_pending (test_cases db)) as [m|]; [|done].
    by destruct (insert_execution _ (test_executions db)).
  - unfold update_test, update_test_status, posted. simpl.
    by destruct (select_execution eid (test_executions db)).
Qed.

End DistributorCopies.

(** ** From claim to report *)

Section ClaimReport.
Import Server.
Implicit Types (db : Database) (node_id : option string) (now : Z).

Lemma update_execution_absent s now res eid (execs : list TestExecution) :
  eid ∉ (te_execution_id <$> execs) →
  update_execution s now res eid execs = execs.
Proof.
  induction execs as [|e execs IH]; csimpl; [done|].
  intros [He Hexecs]%not_elem_of_cons. unfold update_execution in *. csimpl.
  rewrite bool_decide_false by done. by rewrite IH.
Qed.

Lemma select_execution_new eid (execs : list TestExecution) e :
  eid ∉ (te_execution_id <$> execs) → te_execution_id e = eid →
  select_execution eid (execs ++ [e]) = Some e.
Proof.
  intros Hfresh Hid.
  destruct (select_execution_is_Some eid (execs ++ [e])) as [e' He'].
  { rewrite fmap_app. apply elem_of_app. right. csimpl. rewrite Hid.
    apply elem_of_cons. by left. }
  rewrite He'. f_equal.
  destruct (select_execution_Some _ _ _ He') as
    [[Hold| ->%list_elem_of_singleton]%elem_of_app Hid']; [|done].
  destruct Hfresh. rewrite <-Hid'. by apply list_elem_of_fmap_2.
Qed.

(** X15: the execution_id that next_test hands out is accepted by
    update_test: the report is answered 200, completes the record that the
    claim appended -- same id, test, node and start time, now with the
    status, end time and result of the report -- and gives the test that
    status; unless that status is pending, a next_test served on the
    store this report leaves does not hand the test out. *)
Theorem claim_then_report
    db node_id (uuid4 : string) now test_id name suite path db1
    (status : string) (result : option string) (now' : Z) :
  next_test (Some db) node_id uuid4 now =
    (Some db1, (Assignment uuid4 test_id name suite path, 200)) →
  ∃ db2,
    update_test (Some db1) (posted uuid4 status result) now' =
      (Some db2, (Message "Test status updated", 200)) ∧
    test_executions db2 =
      test_executions db ++
      [mkTestExecution uuid4 test_id (default "unknown-node" node_id)
         status now (Some now') result] ∧
    (∀ r, r ∈ test_cases db2 → tc_id r = test_id → tc_status r = status) ∧
    (status ≠ "pending" →
     ∀ node_id' (uuid4' : string) now'' db3 eid name' suite' path',
       next_test (Some db2) node_id' uuid4' now'' ≠
       (Some db3, (Assignment eid test_id name' suite' path', 200))).
Proof.
  unfold next_test at 1. simpl.
  destruct (select_next_pending (test_cases db)) as [m|] eqn:E; [|done].
  destruct (claim db (tc_id m) _ uuid4 now) as [db'|] eqn:C; [|done].
  intros [= -> <- _ _ _].
  pose proof (claim_fresh _ _ _ _ _ _ C) as Hfresh.
  apply claim_inv in C as (Hc & He & _).
  unfold update_test, posted. simpl.
  rewrite He, select_execution_new by done. simpl.
  eexists. split; [done|]. simpl. split_and!.
  - unfold update_execution. rewrite fmap_app.
    fold (update_execution status now' result uuid4 (test_executions db)).
    rewrite update_execution_absent by done. csimpl.
    by rewrite bool_decide_true.
  - intros r (r0 & _ & ->)%elem_of_update_case_status Hid.
    case_bool_decide as H0; [done|]. by destruct H0.
  - intros Hnp node_id' uuid4' now'' db3 eid name' suite' path'.
    unfold next_test. simpl.
    destruct (select_next_pending
                (update_case_status status (tc_id m) (test_cases db1)))
      as [m'|] eqn:E'; [|done].
    destruct (select_next_pending_Some _ _ E') as (Hm' & Hp' & _).
    destruct (claim _ (tc_id m') _ uuid4' now''); [|done].
    intros [= _ _ Hid _ _ _].
    apply elem_of_update_case_status in Hm' as (r0 & _ & ->).
    case_bool_decide as H0; [done|]. by destruct H0.
Qed.

Lemma claim_then_report_witness :
  ∃ db1 db2,
    next_test (Some Scenario.seeded) (Some "pod-a") "e-1" 110 =
      (Some db1,
       (Assignment "e-1" 1 "Valid Login" "auth" "tests/auth/login.robot",
        200)) ∧
    update_test (Some db1) (posted "e-1" "failed" (Some "{}")) 120 =
      (Some db2, (Message "Test status updated", 200)) ∧
    test_executions db2 =
      test_executions Scenario.seeded ++
      [mkTestExecution "e-1" 1 "pod-a" "failed" 110 (Some 120) (Some "{}")].
Proof.
  eexists.
  destruct (claim_then_report Scenario.seeded (Some "pod-a") "e-1" 110 1
              "Valid Login" "auth" "tests/auth/login.robot" _
              "failed" (Some "{}") 120 eq_refl)
    as (db2 & Hreport & Hrecord & _).
  exists db2. split; [reflexivity|]. split; [exact Hreport|exact Hrecord].
Defined.

End ClaimReport.

(** ** Counts *)

Section Counts.
Import Server Summary.

Lemma length_filter_either {A} (P Q : A → Prop)
    `{∀ x, Decision (P x)} `{∀ x, Decision (Q x)} (l : list A) :
  (∀ x, P x → Q x → False) →
  length (filter (λ x, P x ∨ Q x) l) =
  (length (filter P l) + length (filter Q l))%nat.
Proof.
  intros Hdisj. induction l as [|x l IH]; [done|].
  rewrite !filter_cons.
  destruct (decide (P x)) as [HP|HP], (decide (Q x)) as [HQ|HQ].
  - destruct (Hdisj x HP HQ).
  - rewrite decide_True by (by left). simpl. lia.
  - rewrite decide_True by (by right). simpl. lia.
  - rewrite decide_False by (by intros [?|?]). done.
Qed.

(** Read at one state of the database, the four SELECTs give what
    [Merger.get_test_status] computes. *)
Lemma get_test_status_one_state (db : Database) :
  MergerReads.get_test_status (Some db) db db db =
  Merger.get_test_status (Some db).
Proof. reflexivity. Qed.

(** A report committed between the SELECT that counts the finished
    records and the one that counts the passed ones tears the numbers:
    finished is 0 and passed is 1. *)
Lemma get_test_status_torn_reads :
  (λ st, (Merger.finished st, Merger.passed st, Merger.failed st)) <$>
    MergerReads.get_test_status Scenario.claimed Scenario.running_db
      (from_option id Scenario.empty Scenario.reported)
      (from_option id Scenario.empty Scenario.reported)
  = Some (0, 1, 0)%nat.
Proof. vm_compute. reflexivity. Qed.

(** X16: when no report is committed between the three SELECTs of
    get_test_status that read test_executions -- they find the same
    records -- the numbers it returns fit together: finished is passed
    plus failed, and all_completed tells whether the total read by the
    first SELECT is that sum.  The status is None only when the database
    cannot be read. *)
Theorem get_test_status_counts_add_up
    (at_total : option Database) (at_finished at_passed at_failed : Database) :
  test_executions at_passed = test_executions at_finished →
  test_executions at_failed = test_executions at_finished →
  match MergerReads.get_test_status at_total at_finished at_passed at_failed
  with
  | Some st =>
      Merger.finished st = (Merger.passed st + Merger.failed st)%nat ∧
      Merger.all_completed st =
        bool_decide (Merger.total st =
                     (Merger.passed st + Merger.failed st)%nat) ∧
      ∃ db, at_total = Some db ∧ Merger.total st = length (test_cases db)
  | None => at_total = None
  end.
Proof.
  intros Hpassed Hfailed. destruct at_total as [db|]; simpl; [|done].
  rewrite Hpassed, Hfailed.
  assert (length (filter (λ e, te_status e = "completed" ∨
                              te_status e = "failed")
                    (test_executions at_finished))
          = (count_executions "completed" (test_executions at_finished) +
             count_executions "failed" (test_executions at_finished))%nat)
    as Hsum.
  { apply length_filter_either. intros e H1 H2. by rewrite H1 in H2. }
  split_and!; [done|by rewrite Hsum|by exists db].
Qed.

Lemma get_test_status_counts_add_up_witness :
  test_executions (from_option id Scenario.empty Scenario.rerun) =
  test_executions (from_option id Scenario.empty Scenario.reported) ∧
  match MergerReads.get_test_status Scenario.claimed
          (from_option id Scenario.empty Scenario.reported)
          (from_option id Scenario.empty Scenario.rerun)
          (from_option id Scenario.empty Scenario.rerun)
  with
  | Some st =>
      Merger.finished st = (Merger.passed st + Merger.failed st)%nat ∧
      Merger.all_completed st =
        bool_decide (Merger.total st =
                     (Merger.passed st + Merger.failed st)%nat) ∧
      ∃ db, Scenario.claimed = Some db ∧
            Merger.total st = length (test_cases db)
  | None => Scenario.claimed = None
  end.
Proof.
  split; [reflexivity|].
  apply (get_test_status_counts_add_up Scenario.claimed); reflexivity.
Defined.

(** X17: the distributor finds the run complete exactly when the status
    summary of the server has neither a pending nor a running entry, and
    then next_test has nothing to hand out. *)
Theorem check_test_completion_summary
    (db : Database) node_id (uuid4 : string) (now : Z) :
  (Distributor.check_test_completion db = true ↔
   status_counts (test_cases db) !! "pending" = None ∧
   status_counts (test_cases db) !! "running" = None) ∧
  (Distributor.check_test_completion db = true →
   next_test (Some db) node_id uuid4 now =
     (Some db, (Message "No tests available", 404))).
Proof.
  assert (length (filter (λ r, tc_status r = "pending" ∨
                              tc_status r = "running") (test_cases db))
          = (count_cases "pending" (test_cases db) +
             count_cases "running" (test_cases db))%nat) as Hsum.
  { apply length_filter_either. intros r H1 H2. by rewrite H1 in H2. }
  unfold Distributor.check_test_completion.
  rewrite bool_decide_eq_true, Hsum, !status_counts_lookup.
  split.
  - repeat case_decide; split; (done || lia || intros [? ?]; done || lia).
  - intros Hzero. unfold next_test. simpl.
    assert (select_next_pending (test_cases db) = None) as ->; [|done].
    apply select_next_pending_None. intros r Hr Hp.
    assert (0 < count_cases "pending" (test_cases db))%nat; [|lia].
    apply count_cases_pos. rewrite <-Hp. by apply list_elem_of_fmap_2.
Qed.

Lemma check_test_completion_summary_witness :
  (∃ db, Scenario.reported = Some db ∧
     Distributor.check_test_completion db = true ∧
     next_test (Some db) (Some "pod-b") "e-2" 130 =
       (Some db, (Message "No tests available", 404))).
Proof.
  eexists. split; [vm_compute; reflexivity|].
  split; [reflexivity|].
  apply (proj2 (check_test_completion_summary _ (Some "pod-b") "e-2" 130)).
  reflexivity.
Defined.

(** X18: store_in_database stores every test it is given, yet what it
    returns is the row count of its last statement: 1 whenever it is
    given at least one test, however many it stored, and the number of
    rows it deleted when it is given none. *)
Theorem store_in_database_row_count
    (db : Database) (tests : list Parser.ParsedTest) (now : Z) :
  length (test_cases (Parser.store_in_database db tests now).1) = length tests ∧
  (Parser.store_in_database db tests now).2 =
    match tests with
    | [] => length (test_cases db)
    | _ => 1%nat
    end ∧
  ((Parser.store_in_database db tests now).2 =
     length (test_cases (Parser.store_in_database db tests now).1) ↔
   length tests = 1%nat ∨ (tests = [] ∧ test_cases db = [])).
Proof.
  unfold Parser.store_in_database. simpl.
  destruct (foldl_insert_test_case now tests
              {| test_cases := []; test_executions := test_executions db;
                 test_cases_seq := test_cases_seq db |})
    as (_ & added & Hc & Hn & _).
  simpl in *. rewrite Hc.
  assert (length added = length tests) as Hlen.
  { by rewrite <-(length_fmap tc_test_name), Hn, length_fmap. }
  rewrite Hlen. split_and!; [done..|].
  destruct tests as [|t [|t' tests]]; simpl.
  - split; [intros H0; right; split; [done|]; by destruct (test_cases db)
           |intros [?|[_ ->]]; done].
  - split; [by left|done].
  - split; [done|intros [?|[? _]]; done].
Qed.

End Counts.
